(** * thunder/tests/opinfos.py: the operator test-matrix engine

    A shallow embedding of the parts of [opinfos.py] that decide which
    decorators apply to a test ([DecorateInfo], [OpInfo]) and which sample
    inputs the generators yield, with the properties the specification
    states about them. *)

From Stdlib Require Import String Ascii ZArith QArith Qcanon Bool.
From stdpp Require Import base decidable option list strings gmap.

Local Open Scope string_scope.
Local Open Scope list_scope.

(** ** Python values shared by the whole file *)

(** The concrete dtypes [thunder.core.dtypes] exports and [opinfos.py]
    names, and the categories it passes where a dtype is expected. *)
Inductive dtype : Type :=
  | bool8 | uint8 | int8 | int16 | int32 | int64
  | bfloat16 | float16 | float32 | float64
  | complex32 | complex64 | complex128.

Inductive dtype_category : Type :=
  | exact | inexact | floating | complexfloating
  | signedinteger | unsignedinteger.

Inductive dtype_like : Type :=
  | Concrete (d : dtype)
  | Category (c : dtype_category).

#[global] Instance dtype_eq_dec : EqDecision dtype.
Proof. solve_decision. Defined.
#[global] Instance dtype_category_eq_dec : EqDecision dtype_category.
Proof. solve_decision. Defined.
#[global] Instance dtype_like_eq_dec : EqDecision dtype_like.
Proof. solve_decision. Defined.

(** [pytest.mark.xfail] and [pytest.mark.skip], the only decorators the
    directives of this file carry. *)
Inductive pytest_mark : Type := xfail | skip.

(** An executor as [is_active] sees it: only its [name] is read. *)
Module Executor.
Record t : Type := mk { name : string; version : string }.
End Executor.

(** Exceptions the modelled code raises. *)
Inductive exn : Type := NotImplementedError | IndexError.

Inductive result (A : Type) : Type :=
  | Ok (a : A)
  | Raise (e : exn).
Arguments Ok {A} a.
Arguments Raise {A} e.

(** ** Python's [in] on the containers a filter can be *)

(** [needle in hay] on two [str]: substring search. *)
Fixpoint str_contains (needle hay : string) : bool :=
  String.prefix needle hay
  || match hay with
     | EmptyString => false
     | String _ hay' => str_contains needle hay'
     end.

(** The [executors] argument is written as a tuple of names
    ([executors=("nvFuser",)]) and, at two directives, as a parenthesised
    string ([executors=("nvFuser,")]); [in] is element equality on the
    first and substring search on the second. *)
Inductive name_filter : Type :=
  | PyTuple (names : list string)
  | PyStr (s : string).

Definition py_in (x : string) (c : name_filter) : bool :=
  match c with
  | PyTuple names => bool_decide (x ∈ names)
  | PyStr s => str_contains x s
  end.

(** What "the filter contains the name" means, independently of the search
    that decides it. *)
Definition contains (c : name_filter) (x : string) : Prop :=
  match c with
  | PyTuple names => x ∈ names
  | PyStr s => ∃ pre post : string, s = (pre ++ x ++ post)%string
  end.

(** ** Numbers

    Python numbers as the domains and the tensors of this file use them:
    finite values (every [int] and every finite [float] is a rational), the
    two infinities of [math.inf] and [math.nan].  A comparison with [nan]
    is false. *)
Inductive number : Type :=
  | NaN
  | NegInf
  | Fin (q : Qc)
  | PosInf.

#[global] Instance number_eq_dec : EqDecision number.
Proof. solve_decision. Defined.

Definition number_lt (a b : number) : bool :=
  match a, b with
  | NaN, _ | _, NaN => false
  | NegInf, NegInf => false
  | NegInf, _ => true
  | Fin _, NegInf => false
  | Fin x, Fin y => bool_decide (x < y)%Qc
  | Fin _, PosInf => true
  | PosInf, _ => false
  end.

Definition number_le (a b : number) : bool :=
  match a, b with
  | NaN, _ | _, NaN => false
  | _, _ => negb (number_lt b a)
  end.

(** [max(a, b)] and [min(a, b)] of two arguments: the first is kept unless
    the second is strictly larger (smaller). *)
Definition py_max (a b : number) : number := if number_lt a b then b else a.
Definition py_min (a b : number) : number := if number_lt b a then b else a.

Definition int (z : Z) : number := Fin (Qc_of_Z z).

(** ** DecorateInfo *)

Record DecorateInfo : Type := mkDecorateInfo {
  decorator : pytest_mark;
  test_template_name : option string;
  executors : option name_filter;
  devicetypes : option (list string);
  dtypes : option (list dtype);
  active_if : bool
}.

Definition is_active (self : DecorateInfo)
    (test_template_name' : string) (executor : Executor.t)
    (devicetype : string) (dtype' : dtype) : bool :=
  active_if self
  && match executors self with
     | None => true
     | Some es => py_in (Executor.name executor) es
     end
  && match test_template_name self with
     | None => true
     | Some n => bool_decide (n = test_template_name')
     end
  && match devicetypes self with
     | None => true
     | Some ds => bool_decide (devicetype ∈ ds)
     end
  && match dtypes self with
     | None => true
     | Some ds => bool_decide (dtype' ∈ ds)
     end.

(** ** OpInfo

    The record keeps the attributes the methods below read.  The reference
    implementations, the method and operator variants, the error and
    benchmark generators and [singularity_fn] are stored by [__init__] as
    they are passed and read by none of these methods. *)

(** [Domain = namedtuple("Domain", "low high")]. *)
Record Domain : Type := mkDomain {
  low : option number;
  high : option number
}.

(** The wrapped callable; [__init__] reads its [__name__]. *)
Record Callable : Type := mkCallable { __name__ : string }.

(** The generators of this file an [OpInfo] is registered with. *)
Inductive generator : Type :=
  | unary_generator
  | binary_generator
  | reduction_generator
  | var_generator.

Record OpInfo : Type := mkOpInfo {
  op : Callable;
  name : string;
  _devicetypes : list string;
  _dtypes : list dtype_like;
  sample_input_generator : generator;
  test_directives : list DecorateInfo;
  domain : Domain
}.

(** The list comprehension of [test_decorators], as the loop it runs:
    the directives are visited in order and the decorator of each active one
    is appended to the result. *)
Fixpoint test_decorators_from (acc : list pytest_mark)
    (directives : list DecorateInfo)
    (test_name : string) (executor : Executor.t)
    (devicetype : string) (dtype' : dtype) : list pytest_mark :=
  match directives with
  | [] => acc
  | d :: rest =>
      if is_active d test_name executor devicetype dtype'
      then test_decorators_from (acc ++ [decorator d]) rest
             test_name executor devicetype dtype'
      else test_decorators_from acc rest test_name executor devicetype dtype'
  end.

Definition test_decorators (self : OpInfo)
    (test_name : string) (executor : Executor.t)
    (devicetype : string) (dtype' : dtype) : list pytest_mark :=
  test_decorators_from [] (test_directives self)
    test_name executor devicetype dtype'.

Definition device_types (self : OpInfo) : gset string :=
  list_to_set (_devicetypes self).

Section Resolution.

(** [datatypes.resolve_dtypes] and [framework._all_device_types] live in
    modules outside this file; they are taken as given. *)
Variable resolve_dtypes : list dtype_like → list dtype.
Variable _all_device_types : list string.

(** [DecorateInfo.__init__]: absent keyword arguments default to [None]
    and [active_if] to [True]; a dtype filter is resolved on entry. *)
Definition DecorateInfo_init
    (decorator' : pytest_mark)
    (test_template_name' : option string)
    (executors' : option name_filter)
    (devicetypes' : option (list string))
    (dtypes' : option (list dtype_like))
    (active_if' : option bool) : DecorateInfo :=
  {| decorator := decorator';
     test_template_name := test_template_name';
     executors := executors';
     devicetypes := devicetypes';
     dtypes := match dtypes' with
               | None => None
               | Some ds => Some (resolve_dtypes ds)
               end;
     active_if := default true active_if' |}.

(** [OpInfo.__init__], with the keyword arguments the properties read;
    [None] stands for an argument that was not passed. *)
Definition OpInfo_init
    (op' : Callable)
    (name' : option string)
    (devicetypes' : option (list string))
    (dtypes' : option (list dtype_like))
    (sample_input_generator' : generator)
    (test_directives' : list DecorateInfo)
    (domain' : option number * option number) : OpInfo :=
  {| op := op';
     name := match name' with Some n => n | None => __name__ op' end;
     _devicetypes := match devicetypes' with
                     | Some ds => ds
                     | None => _all_device_types
                     end;
     _dtypes := match dtypes' with
                | Some ds => ds
                | None => [Category exact; Category inexact]
                end;
     sample_input_generator := sample_input_generator';
     test_directives := test_directives';
     domain := mkDomain domain'.1 domain'.2 |}.

(** [OpInfo.dtypes(device_type=None)]. *)
Definition OpInfo_dtypes (self : OpInfo) (device_type : option string)
    : result (list dtype) :=
  match device_type with
  | Some _ => Raise NotImplementedError
  | None => Ok (resolve_dtypes (_dtypes self))
  end.

End Resolution.

(** ** Tensors

    A [torch.Tensor] as a strided view of a flat storage: the element at
    index [(i1, ..., in)] is the storage cell
    [storage_offset + i1 * stride1 + ... + in * striden]. *)
Module torch.

Definition Dtype : Type := dtype.

Record Tensor : Type := mkTensor {
  shape : list nat;
  stride : list nat;
  storage_offset : nat;
  storage : list number;
  dtype : Dtype;
  device : string;
  requires_grad : bool
}.

Definition is_floating_point (d : Dtype) : bool :=
  match d with
  | bfloat16 | float16 | float32 | float64 => true
  | _ => false
  end.

Definition is_complex (d : Dtype) : bool :=
  match d with
  | complex32 | complex64 | complex128 => true
  | _ => false
  end.

Definition numel (sizes : list nat) : nat := foldr Nat.mul 1 sizes.

(** The strides of a freshly allocated tensor of the given sizes. *)
Fixpoint contiguous_strides (sizes : list nat) : list nat :=
  match sizes with
  | [] => []
  | _ :: rest =>
      foldr (λ n acc, Nat.max n 1 * acc) 1 rest :: contiguous_strides rest
  end.

(** The scan of [is_contiguous], innermost dimension first: a dimension of
    size 1 is skipped, any other must have the stride the dimensions inside
    it add up to. *)
Fixpoint strides_match (rev_sizes rev_strides : list nat) (expected : nat)
    : bool :=
  match rev_sizes, rev_strides with
  | [], _ => true
  | n :: ns, s :: ss =>
      if (n =? 1)%nat then strides_match ns ss expected
      else (s =? expected)%nat && strides_match ns ss (expected * n)
  | _ :: _, [] => false
  end.

Definition is_contiguous (t : Tensor) : bool :=
  (numel (shape t) =? 0)%nat
  || strides_match (rev (shape t)) (rev (stride t)) 1.

(** The storage cells of a view, in row-major order of its indices. *)
Fixpoint offsets (sizes strides : list nat) (base : nat) : list nat :=
  match sizes, strides with
  | [], _ => [base]
  | n :: ns, s :: ss =>
      flat_map (λ i, offsets ns ss (base + i * s)) (seq 0 n)
  | _ :: _, [] => []
  end.

Definition cells (t : Tensor) : list nat :=
  offsets (shape t) (stride t) (storage_offset t).

(** The elements of a tensor in row-major order. *)
Definition values (t : Tensor) : list number :=
  map (λ p, default NaN (storage t !! p)) (cells t).

(** [t.item()] of a tensor with one element. *)
Definition item (t : Tensor) : number := default NaN (head (values t)).

Definition as_strided (t : Tensor) (size strides : list nat) (offset : nat)
    : Tensor :=
  {| shape := size; stride := strides; storage_offset := offset;
     storage := storage t; dtype := dtype t; device := device t;
     requires_grad := requires_grad t |}.

(** [t.new_empty(size)]: a fresh contiguous tensor of [t]'s dtype and
    device.  Its cells are uninitialised; [NaN] stands for the unread
    content. *)
Definition new_empty (t : Tensor) (size : list nat) : Tensor :=
  {| shape := size; stride := contiguous_strides size; storage_offset := 0;
     storage := replicate (numel size) NaN; dtype := dtype t;
     device := device t; requires_grad := false |}.

(** [t[..., i]]: the view that fixes the last index. *)
Definition select_last (t : Tensor) (i : nat) : Tensor :=
  {| shape := removelast (shape t); stride := removelast (stride t);
     storage_offset := storage_offset t + i * List.last (stride t) 0;
     storage := storage t; dtype := dtype t; device := device t;
     requires_grad := requires_grad t |}.

(** [t[..., i] = vs]: writes [vs], in row-major order, through that view. *)
Definition setitem_last (t : Tensor) (i : nat) (vs : list number) : Tensor :=
  {| shape := shape t; stride := stride t;
     storage_offset := storage_offset t;
     storage := foldl (λ st pv, <[pv.1 := pv.2]> st) (storage t)
                  (zip (cells (select_last t i)) vs);
     dtype := dtype t; device := device t;
     requires_grad := requires_grad t |}.

Definition requires_grad_ (t : Tensor) (flag : bool) : Tensor :=
  {| shape := shape t; stride := stride t;
     storage_offset := storage_offset t; storage := storage t;
     dtype := dtype t; device := device t; requires_grad := flag |}.

End torch.

(** Lines 55-73.  The filler is [math.nan] for floating and complex
    dtypes, [True] (stored as 1) for [torch.bool] and 12 otherwise. *)
Definition noncontiguous_like (t : torch.Tensor) : torch.Tensor :=
  if negb (torch.is_contiguous t) then t
  else
    let value :=
      if torch.is_floating_point (torch.dtype t)
         || torch.is_complex (torch.dtype t)
      then NaN
      else if bool_decide (torch.dtype t = bool8) then int 1
      else int 12 in
    let result := torch.new_empty t (torch.shape t ++ [2]) in
    let result :=
      torch.setitem_last result 0
        (replicate (torch.numel (torch.shape t)) value) in
    let result := torch.setitem_last result 1 (torch.values t) in
    let result := torch.select_last result 1 in
    torch.requires_grad_ result (torch.requires_grad t).

(** ** SampleInput *)

Inductive pyvalue : Type :=
  | VNone
  | VBool (b : bool)
  | VInt (z : Z)
  | VNumber (x : number)
  | VTuple (items : list Z)
  | VTensor (t : torch.Tensor)
  | VDtype (d : dtype).

Definition is_None (v : pyvalue) : bool :=
  match v with VNone => true | _ => false end.

Record SampleInput : Type := mkSampleInput {
  args : list pyvalue;
  kwargs : list (string * pyvalue)
}.

(** [kwargs.get(key)]. *)
Fixpoint kwarg (key : string) (kw : list (string * pyvalue))
    : option pyvalue :=
  match kw with
  | [] => None
  | (k, v) :: rest => if bool_decide (k = key) then Some v else kwarg key rest
  end.

(** [SampleInput.noncontiguous]: [tree_map] rewrites the tensor leaves and
    returns every other leaf as it is. *)
Definition to_noncontiguous (v : pyvalue) : pyvalue :=
  match v with
  | VTensor t => VTensor (noncontiguous_like t)
  | _ => v
  end.

Definition noncontiguous (self : SampleInput) : SampleInput :=
  {| args := map to_noncontiguous (args self);
     kwargs := map (λ kv, (kv.1, to_noncontiguous kv.2)) (kwargs self) |}.

(** ** Sample generators *)

(** The keyword arguments [make_tensor] is called with in this file;
    [extra] holds the [**kwargs] a generator passes through unread. *)
Record make_tensor_args : Type := mkArgs {
  mt_shape : list nat;
  mt_device : string;
  mt_dtype : dtype;
  mt_low : option number;
  mt_high : option number;
  mt_requires_grad : bool;
  mt_noncontiguous : bool;
  mt_extra : list (string * pyvalue)
}.

(** Lines 293-294 of [elementwise_unary_generator]: the bounds handed to
    [make_tensor]. *)
Definition clamp_domain (d : Domain) : option number * option number :=
  (match low d with
   | None => None
   | Some l => Some (py_max (int (-9)) l)
   end,
   match high d with
   | None => None
   | Some h => Some (py_min (int 9) h)
   end).

(** Modelled from the spec: the bounds [make_tensor], which is not among
    the sources, draws from when it is handed [None].  The specification
    has an absent bound defer to the bound of the generation window, -9
    below and 9 above. *)
Definition sampling_bounds (lo hi : option number) : number * number :=
  (default (int (-9)) lo, default (int 9) hi).

(** The bounds the samples of the unary generator are drawn from: what the
    generator hands to [make_tensor], read as [make_tensor] reads it. *)
Definition effective_bounds (d : Domain) : number * number :=
  sampling_bounds (clamp_domain d).1 (clamp_domain d).2.

Definition is_complex_dtype (d : dtype) : bool := torch.is_complex d.

Definition shapes : list (list nat) :=
  [ []; [11]; [4; 4]; [1024; 1024]; [64; 64; 64] ].

(** shape, strides, offset *)
Definition strided_cases : list (list nat * list nat * nat) :=
  [ ([5; 6; 2], [1; 1; 7], 2);
    ([5; 5; 4], [1; 1; 7], 2);
    ([5; 5; 2], [4; 5; 7], 3);
    ([5; 5; 2], [5; 5; 7], 3);
    ([5; 5; 2], [5; 5; 5], 3);
    ([9; 5; 2], [0; 1; 7], 3) ].

(** The cases of [reduction_sample_generator]: shape, dim, keepdim, dtype,
    or shape and dim alone. *)
Inductive reduction_case : Type :=
  | Case4 (shape : list nat) (dim : pyvalue) (keepdim : bool) (dt : pyvalue)
  | Case2 (shape : list nat) (dim : pyvalue).

Definition reduction_cases : list reduction_case :=
  [ Case4 [4; 4] VNone false VNone;
    Case4 [5] VNone true VNone;
    Case4 [5] (VInt 0) false VNone;
    Case4 [8; 1; 6] (VInt 1) true VNone;
    Case4 [8; 7; 5; 1] (VTuple [0; 1]%Z) true VNone;
    Case4 [8; 7; 5; 1] (VTuple [1; 3]%Z) false VNone;
    Case2 [4; 4] VNone ].

Definition unbiased : list pyvalue := [VNone; VBool true; VBool false].
Definition correction : list pyvalue := [VNone; VInt 0; VInt 1].

(** One iteration of the loop of [var_sample_generator]; [None] is the
    [continue] of the skipped combination. *)
Definition var_sample (u c : pyvalue) (sample : SampleInput)
    : result (option SampleInput) :=
  match args sample !! 0%nat with
  | None => Raise IndexError
  | Some a =>
      let dim := match args sample !! 1%nat with
                 | Some d => d
                 | None => VNone
                 end in
      let keepdim := match args sample !! 2%nat with
                     | Some k => k
                     | None => VBool false
                     end in
      if negb (is_None u) && negb (is_None c) then Ok None
      else if negb (is_None u) then
        Ok (Some (mkSampleInput [a; dim; u; keepdim] []))
      else if negb (is_None c) then
        Ok (Some (mkSampleInput [a; dim]
                    [("keepdim", keepdim); ("correction", c)]))
      else Ok (Some (mkSampleInput [a; dim; keepdim] []))
  end.

(** Runs the iterations in order; an exception ends the generator. *)
Fixpoint collect {A : Type} (steps : list (result (option A)))
    : result (list A) :=
  match steps with
  | [] => Ok []
  | Raise e :: _ => Raise e
  | Ok y :: rest =>
      match collect rest with
      | Raise e => Raise e
      | Ok ys => Ok (match y with Some x => x :: ys | None => ys end)
      end
  end.

(** [itertools.product(us, cs, samples)], the last factor varying fastest. *)
Definition product3 {A B C : Type} (us : list A) (cs : list B)
    (samples : list C) : list (A * B * C) :=
  flat_map (λ u, flat_map (λ c, map (λ s, (u, c, s)) samples) cs) us.

Section Generators.

(** [make_tensor] is imported from [thunder.tests.make_tensor]; it draws
    from torch's random state, which is threaded here as [rng]. *)
Variable rng : Type.
Variable make_tensor : make_tensor_args → rng → torch.Tensor * rng.

(** A generator body: a computation over the random state.  The samples a
    generator yields are collected in the order it yields them. *)
Definition gen (A : Type) : Type := rng → A * rng.

Definition ret {A : Type} (a : A) : gen A := λ g, (a, g).

Definition bind {A B : Type} (m : gen A) (k : A → gen B) : gen B :=
  λ g, k (m g).1 (m g).2.

Notation "x <- m ;; k" := (bind m (λ x, k))
  (at level 100, m at next level, right associativity).

Fixpoint for_each {A B : Type} (xs : list A) (body : A → gen B)
    : gen (list B) :=
  match xs with
  | [] => ret []
  | x :: rest =>
      y <- body x ;;
      ys <- for_each rest body ;;
      ret (y :: ys)
  end.

Definition make_number (dt : dtype) (lo hi : option number)
    (extra : list (string * pyvalue)) : gen number :=
  t <- make_tensor (mkArgs [] "cpu" dt lo hi false false extra) ;;
  ret (torch.item t).

Definition elementwise_unary_generator (op' : OpInfo) (device : string)
    (dt : dtype) (requires_grad : bool) (supports_numbers : bool)
    (extra : list (string * pyvalue)) : gen (list SampleInput) :=
  let (lo, hi) := clamp_domain (domain op') in
  let make_arg (shape : list nat) (noncontig : bool) :=
    make_tensor (mkArgs shape device dt lo hi requires_grad noncontig extra) in
  typical <- for_each shapes (λ shape,
    t <- make_arg shape false ;; ret (mkSampleInput [VTensor t] [])) ;;
  noncontig <- for_each shapes (λ shape,
    t <- make_arg shape true ;; ret (mkSampleInput [VTensor t] [])) ;;
  strided <- for_each strided_cases (λ '(shape, strides, offset),
    t <- make_arg [500] false ;;
    let a := torch.as_strided t shape strides offset in
    ret (mkSampleInput [VTensor a] [])) ;;
  scalar <-
    (if supports_numbers && negb (is_complex_dtype dt)
     then a <- make_number dt lo hi extra ;;
          ret [mkSampleInput [VNumber a] []]
     else ret []) ;;
  ret (typical ++ noncontig ++ strided ++ scalar).

Definition elementwise_binary_generator (op' : OpInfo) (device : string)
    (dt : dtype) (requires_grad : bool)
    (extra : list (string * pyvalue)) : gen (list SampleInput) :=
  let make (shape : list nat) :=
    make_tensor (mkArgs shape device dt None None requires_grad false extra) in
  a <- make [4; 4] ;;
  b <- make [4; 4] ;;
  c <- make [4; 1] ;;
  ret [ mkSampleInput [VTensor a; VTensor b] [];
        mkSampleInput [VTensor a; VTensor c] [] ].

(** The loop of [reduction_sample_generator].  Unpacking a four-element
    case rebinds the local [dtype], which the two-element case then reads;
    [dtype_var] is that local.  [make] was built before the loop and keeps
    the dtype the generator was called with. *)
Fixpoint reduction_loop (make : list nat → gen torch.Tensor)
    (dtype_var : pyvalue) (cases : list reduction_case)
    : gen (list SampleInput) :=
  match cases with
  | [] => ret []
  | Case2 shape dim :: rest =>
      t <- make shape ;;
      ys <- reduction_loop make dtype_var rest ;;
      ret (mkSampleInput [VTensor t] [("dtype", dtype_var)] :: ys)
  | Case4 shape dim keepdim dt :: rest =>
      t <- make shape ;;
      ys <- reduction_loop make dt rest ;;
      ret (mkSampleInput [VTensor t; dim; VBool keepdim] [("dtype", dt)] :: ys)
  end.

Definition reduction_sample_generator (op' : OpInfo) (device : string)
    (dt : dtype) (requires_grad : bool) : gen (list SampleInput) :=
  let make (shape : list nat) :=
    make_tensor (mkArgs shape device dt (Some (int (-2))) (Some (int 3))
                   requires_grad false []) in
  reduction_loop make (VDtype dt) reduction_cases.

Definition var_sample_generator (op' : OpInfo) (device : string)
    (dt : dtype) (requires_grad : bool)
    : gen (result (list SampleInput)) :=
  samples <- reduction_sample_generator op' device dt requires_grad ;;
  ret (collect (map (λ '(u, c, sample), var_sample u c sample)
                  (product3 unbiased correction samples))).

End Generators.

(** Modelled from the spec: [make_tensor] ([thunder/tests/make_tensor.py])
    is not among the sources.  The specification describes it as the tensor
    construction utility with shape and low/high knobs, and the interval
    the bounds describe as closed at [low] and open at [high], an absent
    bound being no restriction. *)
Definition in_interval (lo hi : option number) (x : number) : bool :=
  match lo with None => true | Some l => number_le l x end
  && match hi with None => true | Some h => number_lt x h end.

Definition returns_requested_shape {rng : Type}
    (make_tensor : make_tensor_args → rng → torch.Tensor * rng) : Prop :=
  ∀ a g, torch.shape (make_tensor a g).1 = mt_shape a.

Definition draws_from_interval {rng : Type}
    (make_tensor : make_tensor_args → rng → torch.Tensor * rng) : Prop :=
  ∀ a g,
    (∃ x, in_interval (mt_low a) (mt_high a) x = true) →
    Forall (λ v, in_interval (mt_low a) (mt_high a) v = true)
      (torch.values (make_tensor a g).1).

(** ** The acos entry (lines 410-425) *)

Section Registry.

Variable resolve_dtypes : list dtype_like → list dtype.
Variable _all_device_types : list string.

Definition acos_opinfo : OpInfo :=
  OpInfo_init _all_device_types
    (mkCallable "acos") None None None unary_generator
    [ DecorateInfo_init resolve_dtypes xfail
        (Some "test_core_vs_torch_consistency") None (Some ["cpu"])
        (Some [Concrete float16; Concrete complex32]) None ]
    (Some (int (-1)), Some (int 1)).

(** The abs entry (lines 405-408) keeps the default domain. *)
Definition abs_opinfo : OpInfo :=
  OpInfo_init _all_device_types
    (mkCallable "abs") None None None unary_generator [] (None, None).

End Registry.

(** ** Singularity avoidance (lines 36-43)

    The tensor operations of [push_away_from_singularities] act on every
    element on its own; a tensor is represented by the list of its elements
    in row-major order.  The element type and its arithmetic are those of
    the tensor's dtype and are left open. *)
Section Singularities.

Variable E : Type.
Variable zero : E.
Variable add sub : E → E → E.
Variable neg : E → E.
Variable lt : E → E → bool.

(** [t > s] and [t < s] of a tensor and a Python scalar. *)
Definition tensor_gt (t : list E) (s : E) : list bool := map (λ d, lt s d) t.
Definition tensor_lt (t : list E) (s : E) : list bool := map (λ d, lt d s) t.

(** [a & b] on boolean tensors. *)
Definition tensor_and (a b : list bool) : list bool := zip_with andb a b.

Definition tensor_add (t : list E) (s : E) : list E := map (λ v, add v s) t.
Definition tensor_sub (t : list E) (s : E) : list E := map (λ v, sub v s) t.

(** [torch.where(cond, a, b)]. *)
Definition where_ (cond : list bool) (a b : list E) : list E :=
  zip_with (λ (c : bool) ab, if c then ab.1 else ab.2) cond (zip a b).

Definition push_away_from_singularities (x : list E)
    (singularity_fn : list E → list E) (eps : E) : list E :=
  let x_dist := singularity_fn x in
  let x_ :=
    where_ (tensor_and (tensor_gt x_dist zero) (tensor_lt x_dist eps))
      (tensor_add x eps) x in
  where_ (tensor_and (tensor_lt x_dist zero) (tensor_gt x_dist (neg eps)))
    (tensor_sub x eps) x_.

End Singularities.

(** The exact arithmetic of [number], an instance of the element type. *)
Definition number_add (a b : number) : number :=
  match a, b with
  | NaN, _ | _, NaN => NaN
  | Fin x, Fin y => Fin (x + y)%Qc
  | PosInf, NegInf | NegInf, PosInf => NaN
  | PosInf, _ | _, PosInf => PosInf
  | NegInf, _ | _, NegInf => NegInf
  end.

Definition number_neg (a : number) : number :=
  match a with
  | NaN => NaN
  | NegInf => PosInf
  | Fin x => Fin (- x)%Qc
  | PosInf => NegInf
  end.

Definition number_sub (a b : number) : number := number_add a (number_neg b).

(** ** A deterministic [make_tensor]

    The tensor that holds the lowest admissible value everywhere: the lower
    bound when there is one, a value below the upper bound otherwise.  It
    is contiguous whatever [noncontiguous] asks, and the state counts the
    calls. *)
Definition lowest (lo hi : option number) : number :=
  match lo with
  | Some l => l
  | None =>
      match hi with
      | Some (Fin h) => Fin (h - 1)%Qc
      | _ => int 0
      end
  end.

Definition lowest_tensor (a : make_tensor_args) (calls : nat)
    : torch.Tensor * nat :=
  (torch.mkTensor (mt_shape a) (torch.contiguous_strides (mt_shape a)) 0
     (replicate (torch.numel (mt_shape a)) (lowest (mt_low a) (mt_high a)))
     (mt_dtype a) (mt_device a) (mt_requires_grad a),
   S calls).

(** ** Values the statements below are instantiated at *)

(** A directive that filters on the executor alone. *)
Definition nvfuser_only : DecorateInfo :=
  mkDecorateInfo xfail None (Some (PyTuple ["nvFuser"])) None None true.

(** The signed distance to a singularity at 10, on exact numbers. *)
Definition distance_to_ten (t : list number) : list number :=
  map (λ v, number_sub v (int 10)) t.

(** A contiguous 2x3 tensor of [float32]. *)
Definition t23 : torch.Tensor :=
  torch.mkTensor [2; 3] [3; 1] 0 [int 1; int 2; int 3; int 4; int 5; int 6]
    float32 "cpu" true.

(** The (4, 4) sample the deterministic [make_tensor] gives for acos. *)
Definition acos_sample_4x4 : SampleInput :=
  mkSampleInput
    [VTensor (torch.mkTensor [4; 4] [4; 1] 0 (replicate 16 (int (-1)))
                float32 "cpu" false)] [].

(** A [make_tensor] that records the arguments of its calls, for reading
    off what a generator asks for. *)
Definition recording_tensor (a : make_tensor_args)
    (log : list make_tensor_args) : torch.Tensor * list make_tensor_args :=
  (torch.mkTensor (mt_shape a) (torch.contiguous_strides (mt_shape a)) 0 []
     (mt_dtype a) (mt_device a) (mt_requires_grad a),
   log ++ [a]).

(** ** What a sample specifies *)

(** Whether a sample gives the operator an [unbiased] flag (third
    positional argument or keyword) or a [correction] keyword that is not
    [None]. *)
Definition specifies_unbiased (s : SampleInput) : bool :=
  match args s !! 2%nat with
  | Some v => negb (is_None v)
  | None =>
      match kwarg "unbiased" (kwargs s) with
      | Some v => negb (is_None v)
      | None => false
      end
  end.

Definition specifies_correction (s : SampleInput) : bool :=
  match kwarg "correction" (kwargs s) with
  | Some v => negb (is_None v)
  | None => false
  end.

(** ** Further generators *)

(** Writing [vs] through the cells [ps] of a view, the store of
    [torch.setitem_last]. *)
Definition write_cells (st : list number) (ps : list nat) (vs : list number)
    : list number :=
  foldl (λ st pv, <[pv.1 := pv.2]> st) st (zip ps vs).

(** [t[i]] on a tuple of ints, for an index that is not negative. *)
Definition getitem (t : list nat) (i : nat) : result nat :=
  match t !! i with
  | Some n => Ok n
  | None => Raise IndexError
  end.

(** pred_shape, a_shape, b_shape *)
Definition where_cases : list (list nat * list nat * list nat) :=
  [ ([5], [5], [5]);
    ([2; 1; 2], [1; 2; 2], [2; 2; 1]) ].

(** pred_shape, a_shape of [masked_fill_sample_generator]; the third
    component of a case is a number drawn while the tuple is built. *)
Definition masked_fill_shapes : list (list nat * list nat) :=
  [ ([2; 1; 2], [1; 2; 2]);
    ([4; 6], [6; 4; 6]);
    ([3], [3]) ].

(** a.shape, dim, b.shape of [take_sample_generator]; the index shape is
    written as a parenthesised int, [(8)], which [make_tensor] takes as the
    one-dimensional shape. *)
Definition take_cases : list (list nat * nat * list nat) :=
  [ ([4; 2; 3], 0, [8]);
    ([4; 2; 3], 1, [7]);
    ([4; 2; 3], 2, [2]);
    ([4], 0, [8]);
    ([4], 0, [1]);
    ([4; 1], 0, [3]);
    ([4; 1], 1, [5]);
    ([1; 0; 3], 0, [8]) ].

(** a.shape, dim, b.shape of [take_along_axis_sample_generator]. *)
Definition take_along_axis_cases : list (list nat * nat * list nat) :=
  [ ([4; 2; 3], 0, [8; 2; 3]);
    ([4; 2; 3], 1, [4; 1; 3]);
    ([4; 2; 3], 2, [4; 2; 5]);
    ([4], 0, [8]);
    ([4], 0, [1]);
    ([4; 1], 0, [3; 1]);
    ([4; 1], 1, [4; 5]);
    ([4; 2; 3], 2, [1; 2; 7]) ].

Section MoreGenerators.

Variable rng : Type.
Variable make_tensor : make_tensor_args → rng → torch.Tensor * rng.

Notation "x <- m ;; k" := (bind rng m (λ x, k))
  (at level 100, m at next level, right associativity).

(** A loop whose body can raise: the exception ends the generator. *)
Fixpoint for_each_result {A B : Type} (xs : list A)
    (body : A → gen rng (result B)) : gen rng (result (list B)) :=
  match xs with
  | [] => ret rng (Ok [])
  | x :: rest =>
      r <- body x ;;
      match r with
      | Raise e => ret rng (Raise e)
      | Ok y =>
          rs <- for_each_result rest body ;;
          ret rng (match rs with
                   | Ok ys => Ok (y :: ys)
                   | Raise e => Raise e
                   end)
      end
  end.

Definition where_sample_generator (op' : OpInfo) (device : string)
    (dt : dtype) (requires_grad : bool) : gen rng (list SampleInput) :=
  let make (shape : list nat) :=
    make_tensor (mkArgs shape device dt None None requires_grad false []) in
  let make_pred (shape : list nat) :=
    make_tensor (mkArgs shape device bool8 None None false false []) in
  for_each rng where_cases (λ '(pred_shape, a_shape, b_shape),
    pred <- make_pred pred_shape ;;
    a <- make a_shape ;;
    b <- make b_shape ;;
    ret rng (mkSampleInput [VTensor pred; VTensor a; VTensor b] [])).

Definition masked_fill_sample_generator (op' : OpInfo) (device : string)
    (dt : dtype) (requires_grad : bool) : gen rng (list SampleInput) :=
  let make (shape : list nat) :=
    make_tensor (mkArgs shape device dt None None requires_grad false []) in
  let make_pred (shape : list nat) :=
    make_tensor (mkArgs shape device bool8 None None false false []) in
  let number := make_number rng make_tensor dt None None [] in
  cases <- for_each rng masked_fill_shapes (λ '(pred_shape, a_shape),
    value <- number ;; ret rng (pred_shape, a_shape, value)) ;;
  for_each rng cases (λ '(pred_shape, a_shape, value),
    pred <- make_pred pred_shape ;;
    a <- make a_shape ;;
    ret rng (mkSampleInput [VTensor a; VTensor pred; VNumber value] [])).

(** The two index dtypes, [torch.int] and [torch.long]. *)
Definition take_index_dtypes : list dtype := [int32; int64].

Definition take_sample_generator (op' : OpInfo) (device : string)
    (dt : dtype) (requires_grad : bool)
    : gen rng (result (list SampleInput)) :=
  let make (shape : list nat) :=
    make_tensor (mkArgs shape device dt None None requires_grad false []) in
  let make_index (shape : list nat) (hi : nat) (index_dtype : dtype) :=
    make_tensor (mkArgs shape device index_dtype (Some (int 0))
                   (Some (int (Z.of_nat hi))) false false []) in
  per_case <- for_each_result
    take_cases (λ '(shape_a, dim, shape_b),
      for_each_result take_index_dtypes (λ index_dtype,
        a <- make shape_a ;;
        match getitem shape_a dim with
        | Raise e => ret rng (Raise e)
        | Ok hi =>
            b <- make_index shape_b hi index_dtype ;;
            ret rng (Ok (mkSampleInput
                           [VTensor a; VTensor b; VInt (Z.of_nat dim)] []))
        end)) ;;
  ret rng (match per_case with
           | Ok groups => Ok (concat groups)
           | Raise e => Raise e
           end).

Definition take_along_axis_sample_generator (op' : OpInfo) (device : string)
    (dt : dtype) (requires_grad : bool)
    : gen rng (result (list SampleInput)) :=
  let make (shape : list nat) :=
    make_tensor (mkArgs shape device dt None None requires_grad false []) in
  let make_index (shape : list nat) (hi : nat) :=
    make_tensor (mkArgs shape device int64 (Some (int 0))
                   (Some (int (Z.of_nat hi))) false false []) in
  for_each_result take_along_axis_cases (λ '(shape_a, dim, shape_b),
    a <- make shape_a ;;
    match getitem shape_a dim with
    | Raise e => ret rng (Raise e)
    | Ok hi =>
        b <- make_index shape_b hi ;;
        ret rng (Ok (mkSampleInput
                       [VTensor a; VTensor b; VInt (Z.of_nat dim)] []))
    end).

End MoreGenerators.

(** Modelled from the spec: further knobs of [make_tensor], which is not
    among the sources: the tensor it returns has the dtype and the
    [requires_grad] flag it is asked for, and is laid out contiguously from
    the start of its storage unless [noncontiguous] is set. *)
Definition returns_requested_meta {rng : Type}
    (make_tensor : make_tensor_args → rng → torch.Tensor * rng) : Prop :=
  ∀ a g,
    torch.dtype (make_tensor a g).1 = mt_dtype a
    ∧ torch.requires_grad (make_tensor a g).1 = mt_requires_grad a.

Definition returns_contiguous {rng : Type}
    (make_tensor : make_tensor_args → rng → torch.Tensor * rng) : Prop :=
  ∀ a g,
    mt_noncontiguous a = false →
    torch.stride (make_tensor a g).1 = torch.contiguous_strides (mt_shape a)
    ∧ torch.storage_offset (make_tensor a g).1 = 0%nat.

(** The shape of the tensor a one-tensor sample holds. *)
Definition tensor_shape_of (s : SampleInput) : option (list nat) :=
  match args s with
  | [VTensor t] => Some (torch.shape t)
  | _ => None
  end.

(** The shape of that tensor with whether it is contiguous. *)
Definition tensor_layout_of (s : SampleInput) : option (list nat * bool) :=
  match args s with
  | [VTensor t] => Some (torch.shape t, torch.is_contiguous t)
  | _ => None
  end.

(** Modelled from the spec: the [noncontiguous] knob of [make_tensor],
    which is not among the sources: the tensor is contiguous unless the
    knob is set, and noncontiguous when it is set and the tensor has two or
    more elements. *)
Definition honours_noncontiguous {rng : Type}
    (make_tensor : make_tensor_args → rng → torch.Tensor * rng) : Prop :=
  ∀ a g,
    (mt_noncontiguous a = false →
       torch.is_contiguous (make_tensor a g).1 = true)
    ∧ (mt_noncontiguous a = true →
       (2 ≤ torch.numel (mt_shape a))%nat →
       torch.is_contiguous (make_tensor a g).1 = false).

(** A deterministic [make_tensor] that follows the knob: the tensor of
    [lowest_tensor], copied by [noncontiguous_like] when [noncontiguous]
    is set. *)
Definition layout_tensor (a : make_tensor_args) (calls : nat)
    : torch.Tensor * nat :=
  (if mt_noncontiguous a
   then noncontiguous_like (lowest_tensor a calls).1
   else (lowest_tensor a calls).1,
   S calls).

(** The loop of [var_sample_generator] over the samples it has drawn. *)
Definition var_loop (samples : list SampleInput) : result (list SampleInput) :=
  collect (map (λ '(u, c, sample), var_sample u c sample)
             (product3 unbiased correction samples)).

(** The three forms of sample the loop yields from a drawn sample: with the
    tensor, [dim] and [keepdim] alone, with an [unbiased] flag before
    [keepdim], and with [keepdim] and a [correction] as keywords.  An
    absent [dim] is [None] and an absent [keepdim] is [False]. *)
Definition var_dim (s : SampleInput) : pyvalue :=
  match args s !! 1%nat with Some d => d | None => VNone end.

Definition var_keepdim (s : SampleInput) : pyvalue :=
  match args s !! 2%nat with Some k => k | None => VBool false end.

Definition var_tensor (s : SampleInput) : pyvalue :=
  match args s !! 0%nat with Some a => a | None => VNone end.

Definition var_plain (s : SampleInput) : SampleInput :=
  mkSampleInput [var_tensor s; var_dim s; var_keepdim s] [].

Definition var_with_unbiased (u : pyvalue) (s : SampleInput) : SampleInput :=
  mkSampleInput [var_tensor s; var_dim s; u; var_keepdim s] [].

Definition var_with_correction (c : pyvalue) (s : SampleInput)
    : SampleInput :=
  mkSampleInput [var_tensor s; var_dim s]
    [("keepdim", var_keepdim s); ("correction", c)].

(** What an index tensor drawn for dimension [dim] of [a] must satisfy:
    every value is a valid position in that dimension. *)
Definition indexes_dimension (a b : torch.Tensor) (dim : nat) : Prop :=
  ∃ n, torch.shape a !! dim = Some n
    ∧ ∀ v, v ∈ torch.values b →
        ∃ q : Qc, v = Fin q ∧ (Qc_of_Z 0 ≤ q)%Qc ∧ (q < Qc_of_Z (Z.of_nat n))%Qc.

(** ** The squeeze reference (lines 2020-2031) *)

Module squeeze.

(** [torch.squeeze(a, dim)]: [dim] counts from the end when negative and
    must lie in [-r, r) for a tensor of [r] dimensions (in [-1, 0] for a
    tensor of none); the dimension is removed when its size is 1. *)
Definition wrap_dim (rank : nat) (dim : Z) : result nat :=
  let r := Z.of_nat (Nat.max rank 1) in
  if bool_decide (- r ≤ dim < r)%Z
  then Ok (Z.to_nat (if bool_decide (dim < 0)%Z then dim + r else dim)%Z)
  else Raise IndexError.

Definition squeeze_dim (a : torch.Tensor) (dim : Z) : result torch.Tensor :=
  match wrap_dim (length (torch.shape a)) dim with
  | Raise e => Raise e
  | Ok i =>
      Ok (if bool_decide (torch.shape a !! i = Some 1%nat)
          then torch.mkTensor (delete i (torch.shape a))
                 (delete i (torch.stride a)) (torch.storage_offset a)
                 (torch.storage a) (torch.dtype a) (torch.device a)
                 (torch.requires_grad a)
          else a)
  end.

(** [torch.squeeze(a)]: every dimension of size 1 is removed. *)
Definition squeeze_all (a : torch.Tensor) : torch.Tensor :=
  let kept :=
    List.filter (λ ns, negb (ns.1 =? 1)%nat)
      (zip (torch.shape a) (torch.stride a)) in
  torch.mkTensor (map fst kept) (map snd kept) (torch.storage_offset a)
    (torch.storage a) (torch.dtype a) (torch.device a)
    (torch.requires_grad a).

(** [sorted(dims, reverse=True)] on ints. *)
Fixpoint insert_desc (x : Z) (l : list Z) : list Z :=
  match l with
  | [] => [x]
  | y :: rest => if (y <? x)%Z then x :: l else y :: insert_desc x rest
  end.

Definition sorted_reverse (l : list Z) : list Z := foldr insert_desc [] l.

(** The [dim] argument: a sequence, [None] or a number. *)
Inductive dim_arg : Type :=
  | DimSeq (dims : list Z)
  | DimNone
  | DimInt (dim : Z).

(** The loop over the sorted dims; an exception of [squeeze] ends it. *)
Fixpoint squeeze_each (a : torch.Tensor) (dims : list Z)
    : result torch.Tensor :=
  match dims with
  | [] => Ok a
  | dim :: rest =>
      match squeeze_dim a dim with
      | Raise e => Raise e
      | Ok a' => squeeze_each a' rest
      end
  end.

Definition torch_squeeze_helper (a : torch.Tensor) (dim : dim_arg)
    : result torch.Tensor :=
  match dim with
  | DimSeq dims => squeeze_each a (sorted_reverse dims)
  | DimNone => Ok (squeeze_all a)
  | DimInt d => squeeze_dim a d
  end.

(** The sizes left when the dimensions listed in [dims] that have size 1
    are removed; [i] is the position of the first size. *)
Fixpoint without_unit_dims (i : nat) (dims : list nat) (sizes : list nat)
    : list nat :=
  match sizes with
  | [] => []
  | n :: rest =>
      if bool_decide (i ∈ dims) && (n =? 1)%nat
      then without_unit_dims (S i) dims rest
      else n :: without_unit_dims (S i) dims rest
  end.

(** Strictly descending: every element is above all that follow it. *)
Fixpoint descending (l : list Z) : Prop :=
  match l with
  | [] => True
  | x :: rest => (∀ y, y ∈ rest → (y < x)%Z) ∧ descending rest
  end.

End squeeze.

(** The shape (1, 2, 1, 1, 3, 1) of the squeeze samples. *)
Definition t121131 : torch.Tensor :=
  torch.mkTensor [1; 2; 1; 1; 3; 1] [6; 3; 3; 3; 1; 1] 0
    [int 1; int 2; int 3; int 4; int 5; int 6] float32 "cpu" false.

(** * Properties *)

(** ** Containment *)

Lemma append_cons (a : ascii) (s t : string) :
  (String a s ++ t)%string = String a (s ++ t)%string.
Proof. reflexivity. Qed.

Lemma prefix_cons (a b : ascii) (p s : string) :
  String.prefix (String a p) (String b s)
  = if Ascii.ascii_dec a b then String.prefix p s else false.
Proof. reflexivity. Qed.

Lemma prefix_spec (p s : string) :
  String.prefix p s = true ↔ ∃ post : string, s = (p ++ post)%string.
Proof.
  revert s; induction p as [|a p IH]; intros s.
  - split; [intros _; by exists s | by destruct s].
  - destruct s as [|b s].
    + split; [done | intros [post Hpost]; discriminate].
    + rewrite prefix_cons. destruct (Ascii.ascii_dec a b) as [-> |Hne].
      * rewrite IH. split; intros [post Hpost]; exists post.
        -- by rewrite append_cons, <- Hpost.
        -- rewrite append_cons in Hpost. by injection Hpost.
      * split; [done | intros [post Hpost]].
        rewrite append_cons in Hpost. injection Hpost; congruence.
Qed.

Lemma str_contains_cons (x : string) (a : ascii) (s : string) :
  str_contains x (String a s)
  = String.prefix x (String a s) || str_contains x s.
Proof. reflexivity. Qed.

Lemma str_contains_spec (x s : string) :
  str_contains x s = true ↔ ∃ pre post : string, s = (pre ++ x ++ post)%string.
Proof.
  induction s as [|a s IH].
  - change (str_contains x "") with (String.prefix x "" || false).
    rewrite orb_false_r, prefix_spec. split.
    + intros [post Hpost]. by exists EmptyString, post.
    + intros [pre [post Hs]]. destruct pre; [by exists post | discriminate].
  - rewrite str_contains_cons, orb_true_iff, prefix_spec, IH. split.
    + intros [[post Hpost] | [pre [post Hs]]].
      * by exists EmptyString, post.
      * exists (String a pre), post. by rewrite Hs.
    + intros [pre [post Hs]]. destruct pre as [|b pre].
      * left. by exists post.
      * right. exists pre, post. rewrite append_cons in Hs. by injection Hs.
Qed.

Lemma py_in_spec (x : string) (c : name_filter) :
  py_in x c = true ↔ contains c x.
Proof.
  destruct c as [names|s]; simpl.
  - apply bool_decide_eq_true.
  - apply str_contains_spec.
Qed.

(** ** Selection of decorators *)

(** C1: a directive is active exactly when [active_if] holds and each of
    its four filters is either unset or matches the candidate: the test
    name is equal, the executor's name is contained in the executor filter,
    the device type and the dtype are members of their filters. *)
Theorem is_active_iff (m : DecorateInfo) (test_name : string)
    (executor : Executor.t) (devicetype : string) (dt : dtype) :
  is_active m test_name executor devicetype dt = true ↔
    active_if m = true
    ∧ (test_template_name m = None ∨ test_template_name m = Some test_name)
    ∧ (executors m = None
       ∨ ∃ es, executors m = Some es ∧ contains es (Executor.name executor))
    ∧ (devicetypes m = None
       ∨ ∃ ds, devicetypes m = Some ds ∧ devicetype ∈ ds)
    ∧ (dtypes m = None ∨ ∃ ds, dtypes m = Some ds ∧ dt ∈ ds).
Proof.
  unfold is_active.
  rewrite !andb_true_iff.
  destruct m as [dec tn es ds dts act]; simpl.
  split.
  - intros [[[[Hact Hes] Htn] Hds] Hdts]. repeat split; [done|..].
    + destruct tn as [n|]; [right | by left].
      by apply bool_decide_eq_true in Htn as ->.
    + destruct es as [e|]; [right | by left].
      exists e. by rewrite <- py_in_spec.
    + destruct ds as [d|]; [right | by left].
      exists d. by apply bool_decide_eq_true in Hds.
    + destruct dts as [d|]; [right | by left].
      exists d. by apply bool_decide_eq_true in Hdts.
  - intros (Hact & Htn & Hes & Hds & Hdts). repeat split; [done|..].
    + destruct Hes as [-> | [e [-> He]]]; [done | by apply py_in_spec].
    + destruct Htn as [-> | ->]; [done | by apply bool_decide_eq_true].
    + destruct Hds as [-> | [d [-> Hd]]]; [done | by apply bool_decide_eq_true].
    + destruct Hdts as [-> | [d [-> Hd]]]; [done | by apply bool_decide_eq_true].
Qed.

(** C8: the decision does not depend on a component of the candidate whose
    filter is unset.  Two candidates that agree on every component the
    directive filters on (executors are compared by name) get the same
    answer. *)
Theorem is_active_unfiltered (m : DecorateInfo)
    (test_name1 test_name2 : string) (executor1 executor2 : Executor.t)
    (devicetype1 devicetype2 : string) (dt1 dt2 : dtype) :
  (test_template_name m = None ∨ test_name1 = test_name2) →
  (executors m = None
   ∨ Executor.name executor1 = Executor.name executor2) →
  (devicetypes m = None ∨ devicetype1 = devicetype2) →
  (dtypes m = None ∨ dt1 = dt2) →
  is_active m test_name1 executor1 devicetype1 dt1
  = is_active m test_name2 executor2 devicetype2 dt2.
Proof.
  intros Htn Hes Hds Hdts. unfold is_active.
  destruct Htn as [-> | ->], Hes as [-> | ->], Hds as [-> | ->],
    Hdts as [-> | ->]; reflexivity.
Qed.

Lemma is_active_unfiltered_witness :
  (test_template_name nvfuser_only = None ∨ "test_a" = "test_b")
  ∧ (executors nvfuser_only = None
     ∨ Executor.name (Executor.mk "nvFuser" "0.0.3")
       = Executor.name (Executor.mk "nvFuser" "0.0.5"))
  ∧ (devicetypes nvfuser_only = None ∨ "cpu" = "cuda")
  ∧ (dtypes nvfuser_only = None ∨ float16 = int64)
  ∧ is_active nvfuser_only "test_a" (Executor.mk "nvFuser" "0.0.3") "cpu"
      float16
    = is_active nvfuser_only "test_b" (Executor.mk "nvFuser" "0.0.5") "cuda"
        int64.
Proof.
  assert (H1 : test_template_name nvfuser_only = None ∨ "test_a" = "test_b")
    by (left; reflexivity).
  assert (H2 : executors nvfuser_only = None
               ∨ Executor.name (Executor.mk "nvFuser" "0.0.3")
                 = Executor.name (Executor.mk "nvFuser" "0.0.5"))
    by (right; reflexivity).
  assert (H3 : devicetypes nvfuser_only = None ∨ "cpu" = "cuda")
    by (left; reflexivity).
  assert (H4 : dtypes nvfuser_only = None ∨ float16 = int64)
    by (left; reflexivity).
  repeat (split; [assumption|]).
  exact (is_active_unfiltered nvfuser_only "test_a" "test_b"
           (Executor.mk "nvFuser" "0.0.3") (Executor.mk "nvFuser" "0.0.5")
           "cpu" "cuda" float16 int64 H1 H2 H3 H4).
Defined.

Lemma test_decorators_from_spec (acc : list pytest_mark)
    (directives : list DecorateInfo) (test_name : string)
    (executor : Executor.t) (devicetype : string) (dt : dtype) :
  test_decorators_from acc directives test_name executor devicetype dt
  = acc ++ map decorator
             (List.filter
                (λ d, is_active d test_name executor devicetype dt)
                directives).
Proof.
  revert acc; induction directives as [|d rest IH]; intros acc; simpl.
  - by rewrite app_nil_r.
  - destruct (is_active d test_name executor devicetype dt); rewrite IH.
    + by rewrite <- app_assoc.
    + done.
Qed.

(** C2: [test_decorators] returns the decorators of exactly the active
    directives, all of them, in the order the directives are registered. *)
Theorem test_decorators_all_active (self : OpInfo) (test_name : string)
    (executor : Executor.t) (devicetype : string) (dt : dtype) :
  test_decorators self test_name executor devicetype dt
  = map decorator
      (List.filter (λ d, is_active d test_name executor devicetype dt)
         (test_directives self)).
Proof. unfold test_decorators. by rewrite test_decorators_from_spec. Qed.

(** The stacking scenario: two directives that both match
    [("t", "X", float16)] contribute both decorators, first one first. *)
Example test_decorators_stack :
  let first := mkDecorateInfo skip (Some "t") None None (Some [float16]) true in
  let second := mkDecorateInfo xfail None (Some (PyTuple ["X"])) None None true in
  let other := mkDecorateInfo xfail (Some "u") None None None true in
  let info :=
    mkOpInfo (mkCallable "add") "add" ["cpu"] [] binary_generator
      [first; other; second] (mkDomain None None) in
  test_decorators info "t" (Executor.mk "X" "1") "cpu" float16 = [skip; xfail].
Proof. reflexivity. Qed.

(** The two directives whose executor filter is the string ["nvFuser,"]
    match by substring: the executor named [nvFuser] and any executor whose
    name is a piece of that string. *)
Example is_active_string_filter :
  let m := mkDecorateInfo xfail None (Some (PyStr "nvFuser,")) None None true in
  is_active m "t" (Executor.mk "nvFuser" "1") "cpu" float16 = true
  ∧ is_active m "t" (Executor.mk "Fuser" "1") "cpu" float16 = true
  ∧ is_active m "t" (Executor.mk "TorchEx" "1") "cpu" float16 = false.
Proof. repeat split. Qed.

(** ** Defaults of an OpInfo *)

(** C10: an [OpInfo] built without [name], [devicetypes] and [dtypes] is
    named after its callable, supports the set of all known device types,
    declares the categories [(exact, inexact)], and [dtypes()] resolves
    that pair. *)
Theorem OpInfo_defaults
    (resolve_dtypes : list dtype_like → list dtype)
    (_all_device_types : list string)
    (op' : Callable) (g : generator) (directives : list DecorateInfo)
    (domain' : option number * option number) :
  let self :=
    OpInfo_init _all_device_types op' None None None g directives domain' in
  name self = __name__ op'
  ∧ device_types self = list_to_set _all_device_types
  ∧ (∀ d, d ∈ device_types self ↔ d ∈ _all_device_types)
  ∧ _dtypes self = [Category exact; Category inexact]
  ∧ OpInfo_dtypes resolve_dtypes self None
    = Ok (resolve_dtypes [Category exact; Category inexact]).
Proof.
  simpl. repeat split; try done.
  - intros Hd. by apply elem_of_list_to_set in Hd.
  - intros Hd. by apply elem_of_list_to_set.
Qed.

(** ** Order on numbers *)

Lemma number_lt_Fin (x y : Qc) : number_lt (Fin x) (Fin y) = true ↔ (x < y)%Qc.
Proof. apply bool_decide_eq_true. Qed.

Lemma number_le_Fin (x y : Qc) : number_le (Fin x) (Fin y) = true ↔ (x ≤ y)%Qc.
Proof.
  unfold number_le. rewrite negb_true_iff. simpl.
  rewrite bool_decide_eq_false. symmetry. apply Qcle_ngt.
Qed.

Lemma number_lt_irrefl (a : number) : number_lt a a = false.
Proof.
  destruct a as [| |q|]; try reflexivity.
  apply bool_decide_eq_false. apply Qcle_ngt, Qcle_refl.
Qed.

Lemma number_lt_asym (a b : number) :
  number_lt a b = true → number_lt b a = false.
Proof.
  destruct a as [| |x|], b as [| |y|]; try done.
  rewrite number_lt_Fin. intros Hxy.
  apply bool_decide_eq_false. by apply Qcle_ngt, Qclt_le_weak.
Qed.

Lemma number_le_lt_trans (a b c : number) :
  number_le a b = true → number_lt b c = true → number_lt a c = true.
Proof.
  destruct a as [| |x|], b as [| |y|], c as [| |z|]; try done.
  rewrite number_le_Fin, !number_lt_Fin. apply Qcle_lt_trans.
Qed.

Lemma number_le_refl (a b : number) :
  number_le a b = true → number_le a a = true.
Proof.
  destruct a as [| |x|]; try done.
  intros _. apply number_le_Fin, Qcle_refl.
Qed.

(** ** The sampling window *)

Lemma py_max_Fin (a l : Qc) :
  ∃ l' : Qc, py_max (Fin a) (Fin l) = Fin l'
    ∧ (a ≤ l')%Qc ∧ (l ≤ l')%Qc
    ∧ ∀ x : Qc, (l' ≤ x)%Qc ↔ (l ≤ x)%Qc ∧ (a ≤ x)%Qc.
Proof.
  unfold py_max. destruct (number_lt (Fin a) (Fin l)) eqn:Hlt.
  - apply number_lt_Fin in Hlt. exists l.
    split; [done|]. split; [by apply Qclt_le_weak|].
    split; [apply Qcle_refl|]. intros x. split; [|tauto].
    intros Hx. split; [done|].
    apply Qcle_trans with l; [by apply Qclt_le_weak | done].
  - apply bool_decide_eq_false in Hlt. apply Qcle_ngt in Hlt. exists a.
    split; [done|]. split; [apply Qcle_refl|]. split; [done|].
    intros x. split; [|tauto].
    intros Hx. split; [|done]. by apply Qcle_trans with a.
Qed.

Lemma py_min_Fin (b h : Qc) :
  ∃ h' : Qc, py_min (Fin b) (Fin h) = Fin h'
    ∧ (h' ≤ b)%Qc ∧ (h' ≤ h)%Qc
    ∧ ∀ x : Qc, (x < h')%Qc ↔ (x < h)%Qc ∧ (x < b)%Qc.
Proof.
  unfold py_min. destruct (number_lt (Fin h) (Fin b)) eqn:Hlt.
  - apply number_lt_Fin in Hlt. exists h.
    split; [done|]. split; [by apply Qclt_le_weak|].
    split; [apply Qcle_refl|]. intros x. split; [|tauto].
    intros Hx. split; [done|]. by apply Qclt_trans with h.
  - apply bool_decide_eq_false in Hlt. apply Qcle_ngt in Hlt. exists b.
    split; [done|]. split; [apply Qcle_refl|]. split; [done|].
    intros x. split; [|tauto].
    intros Hx. split; [|done]. by apply Qclt_le_trans with b.
Qed.

(** A comparison with an infinity or with nan is decided by evaluation. *)
Ltac order_case := cbn; split; [intros ?; by split | by intros [? ?]].

Lemma py_max_le (a : Qc) (l x : number) :
  l ≠ NaN →
  number_le (py_max (Fin a) l) x = true
  ↔ number_le l x = true ∧ number_le (Fin a) x = true.
Proof.
  intros Hl. destruct l as [| |l|]; [done| | |].
  - change (py_max (Fin a) NegInf) with (Fin a).
    destruct x; order_case.
  - destruct (py_max_Fin a l) as (l' & Hmax & Hal & Hll & Hiff).
    rewrite Hmax. destruct x as [| |x|]; [order_case|order_case| |order_case].
    rewrite !number_le_Fin. apply Hiff.
  - change (py_max (Fin a) PosInf) with PosInf.
    destruct x; order_case.
Qed.

Lemma py_min_lt (b : Qc) (h x : number) :
  h ≠ NaN →
  number_lt x (py_min (Fin b) h) = true
  ↔ number_lt x h = true ∧ number_lt x (Fin b) = true.
Proof.
  intros Hh. destruct h as [| |h|]; [done| | |].
  - change (py_min (Fin b) NegInf) with NegInf.
    destruct x; order_case.
  - destruct (py_min_Fin b h) as (h' & Hmin & Hhb & Hhh & Hiff).
    rewrite Hmin. destruct x as [| |x|]; [order_case|order_case| |order_case].
    rewrite !number_lt_Fin. apply Hiff.
  - change (py_min (Fin b) PosInf) with (Fin b).
    destruct x; order_case.
Qed.

(** C3: the bounds the unary samples are drawn from are the intersection
    of the operator's domain with the window [-9, 9), for every domain
    whose bounds are not nan: a bound that is present, finite or infinite,
    is clamped by the generator and stays present, and a bound that is
    absent is handed on as [None] and defers to the window bound, -9 or 9.
    For finite bounds the interval is never wider than
    [max(-9, low), min(9, high)]. *)
Theorem clamp_domain_window (d : Domain) :
  (∀ l, low d = Some l → l ≠ NaN) →
  (∀ h, high d = Some h → h ≠ NaN) →
  (low d = None →
     (clamp_domain d).1 = None ∧ (effective_bounds d).1 = int (-9))
  ∧ (high d = None →
       (clamp_domain d).2 = None ∧ (effective_bounds d).2 = int 9)
  ∧ (∀ l, low d = Some l → (clamp_domain d).1 = Some (effective_bounds d).1)
  ∧ (∀ h, high d = Some h → (clamp_domain d).2 = Some (effective_bounds d).2)
  ∧ (∀ x, number_le (effective_bounds d).1 x = true
          ↔ in_interval (low d) None x = true
            ∧ number_le (int (-9)) x = true)
  ∧ (∀ x, number_lt x (effective_bounds d).2 = true
          ↔ in_interval None (high d) x = true
            ∧ number_lt x (int 9) = true)
  ∧ (∀ l h : Qc, low d = Some (Fin l) → high d = Some (Fin h) →
       ∃ l' h' : Qc,
         clamp_domain d = (Some (Fin l'), Some (Fin h'))
         ∧ (Qc_of_Z (-9) ≤ l')%Qc ∧ (l ≤ l')%Qc
         ∧ (h' ≤ Qc_of_Z 9)%Qc ∧ (h' ≤ h)%Qc
         ∧ ∀ x : Qc,
             (l' ≤ x)%Qc ∧ (x < h')%Qc ↔
             ((l ≤ x)%Qc ∧ (x < h)%Qc)
             ∧ ((Qc_of_Z (-9) ≤ x)%Qc ∧ (x < Qc_of_Z 9)%Qc)).
Proof.
  destruct d as [lo hi].
  unfold effective_bounds, sampling_bounds, clamp_domain, in_interval, int.
  cbn [low high fst snd]. intros Hlo Hhi.
  split; [by intros ->|]. split; [by intros ->|].
  split; [by intros l ->|]. split; [by intros h ->|].
  split; [|split].
  - intros x. destruct lo as [l|]; cbn [default from_option id fst snd].
    + rewrite py_max_le by (by apply Hlo). by rewrite andb_true_r.
    + tauto.
  - intros x. destruct hi as [h|]; cbn [default from_option id fst snd].
    + rewrite py_min_lt by (by apply Hhi). tauto.
    + tauto.
  - intros l h -> ->.
    destruct (py_max_Fin (Qc_of_Z (-9)) l) as (l' & -> & Hl9 & Hll & Hl).
    destruct (py_min_Fin (Qc_of_Z 9) h) as (h' & -> & Hh9 & Hhh & Hh).
    exists l', h'. repeat split; try done.
    all: rewrite ?Hl, ?Hh in *; tauto.
Qed.

(** The domain of acosh (line 429), [(1, math.inf)]. *)
Lemma clamp_domain_window_witness :
  let d := mkDomain (Some (int 1)) (Some PosInf) in
  (∀ l, low d = Some l → l ≠ NaN)
  ∧ (∀ h, high d = Some h → h ≠ NaN)
  ∧ (low d = None →
       (clamp_domain d).1 = None ∧ (effective_bounds d).1 = int (-9))
  ∧ (high d = None →
       (clamp_domain d).2 = None ∧ (effective_bounds d).2 = int 9)
  ∧ (∀ l, low d = Some l → (clamp_domain d).1 = Some (effective_bounds d).1)
  ∧ (∀ h, high d = Some h → (clamp_domain d).2 = Some (effective_bounds d).2)
  ∧ (∀ x, number_le (effective_bounds d).1 x = true
          ↔ in_interval (low d) None x = true
            ∧ number_le (int (-9)) x = true)
  ∧ (∀ x, number_lt x (effective_bounds d).2 = true
          ↔ in_interval None (high d) x = true
            ∧ number_lt x (int 9) = true)
  ∧ (∀ l h : Qc, low d = Some (Fin l) → high d = Some (Fin h) →
       ∃ l' h' : Qc,
         clamp_domain d = (Some (Fin l'), Some (Fin h'))
         ∧ (Qc_of_Z (-9) ≤ l')%Qc ∧ (l ≤ l')%Qc
         ∧ (h' ≤ Qc_of_Z 9)%Qc ∧ (h' ≤ h)%Qc
         ∧ ∀ x : Qc,
             (l' ≤ x)%Qc ∧ (x < h')%Qc ↔
             ((l ≤ x)%Qc ∧ (x < h)%Qc)
             ∧ ((Qc_of_Z (-9) ≤ x)%Qc ∧ (x < Qc_of_Z 9)%Qc)).
Proof.
  intros d.
  assert (Hlo : ∀ l, low d = Some l → l ≠ NaN)
    by (intros l [= <-]; discriminate).
  assert (Hhi : ∀ h, high d = Some h → h ≠ NaN)
    by (intros h [= <-]; discriminate).
  split; [exact Hlo|]. split; [exact Hhi|].
  exact (clamp_domain_window d Hlo Hhi).
Defined.

(** The bounds of the registered domains that have an infinite or an
    absent side: acosh [(1, inf)] is sampled from [1, 9), the default
    [(None, None)] from the window [-9, 9). *)
Example effective_bounds_one_sided :
  effective_bounds (mkDomain (Some (int 1)) (Some PosInf)) = (int 1, int 9)
  ∧ effective_bounds (mkDomain None None) = (int (-9), int 9)
  ∧ clamp_domain (mkDomain (Some (int 1)) (Some PosInf))
    = (Some (int 1), Some (int 9))
  ∧ clamp_domain (mkDomain None None) = (None, None).
Proof. repeat split. Qed.

(** The acos window is the domain itself. *)
Example clamp_domain_acos :
  clamp_domain (mkDomain (Some (int (-1))) (Some (int 1)))
  = (Some (int (-1)), Some (int 1)).
Proof. vm_compute. reflexivity. Qed.

(** For an operator with the default domain every call of [make_tensor]
    gets [low=None] and [high=None]: 16 tensors and the scalar. *)
Example unary_generator_passes_absent_bounds :
  map (λ a, (mt_low a, mt_high a))
    (elementwise_unary_generator (list make_tensor_args) recording_tensor
       (abs_opinfo ["cpu"]) "cpu" float32 false true [] []).2
  = replicate 17 (None, None).
Proof. vm_compute. reflexivity. Qed.

(** ** Singularity avoidance *)

Section PushAway.

Context {E : Type} (zero : E) (add sub : E → E → E) (neg : E → E)
  (lt : E → E → bool).

Lemma where_lookup (cond : list bool) (a b : list E) (i : nat)
    (c : bool) (va vb : E) :
  cond !! i = Some c → a !! i = Some va → b !! i = Some vb →
  where_ E cond a b !! i = Some (if c then va else vb).
Proof.
  intros Hc Ha Hb. unfold where_.
  rewrite lookup_zip_with, Hc. simpl.
  rewrite lookup_zip_with, Ha. simpl. by rewrite Hb.
Qed.

Lemma tensor_and_lookup (a b : list bool) (i : nat) (ca cb : bool) :
  a !! i = Some ca → b !! i = Some cb →
  tensor_and a b !! i = Some (ca && cb).
Proof.
  intros Ha Hb. unfold tensor_and.
  rewrite lookup_zip_with, Ha. simpl. by rewrite Hb.
Qed.

(** What [push_away_from_singularities] computes at one position. *)
Lemma push_away_lookup (x : list E) (singularity_fn : list E → list E)
    (eps : E) (i : nat) (v d : E) :
  x !! i = Some v → singularity_fn x !! i = Some d →
  push_away_from_singularities E zero add sub neg lt x singularity_fn eps !! i
  = Some (if lt d zero && lt (neg eps) d then sub v eps
          else if lt zero d && lt d eps then add v eps
          else v).
Proof.
  intros Hv Hd. unfold push_away_from_singularities.
  apply where_lookup.
  - apply tensor_and_lookup; unfold tensor_lt, tensor_gt;
      by rewrite list_lookup_fmap, Hd.
  - unfold tensor_sub. by rewrite list_lookup_fmap, Hv.
  - apply where_lookup; [|unfold tensor_add; by rewrite list_lookup_fmap, Hv|done].
    apply tensor_and_lookup; unfold tensor_lt, tensor_gt;
      by rewrite list_lookup_fmap, Hd.
Qed.

End PushAway.

(** C4: every element is moved on its own, by the distance [d] that
    [singularity_fn] reports at its position: forward by [eps] when
    [0 < d < eps], backward by [eps] when [-eps < d < 0], and not at all
    otherwise, in particular when [d] is 0, [eps] or [-eps].  The order is
    any comparison that is irreflexive and never puts a value on both sides
    of zero, with the negation of a positive [eps] not positive. *)
Theorem push_away_elementwise {E : Type} (zero : E) (add sub : E → E → E)
    (neg : E → E) (lt : E → E → bool)
    (x : list E) (singularity_fn : list E → list E) (eps : E)
    (i : nat) (v d : E) :
  (∀ a, lt a a = false) →
  (∀ a, lt zero a = true → lt a zero = false) →
  (lt zero (neg eps) = false) →
  lt zero eps = true →
  x !! i = Some v →
  singularity_fn x !! i = Some d →
  ∃ r,
    push_away_from_singularities E zero add sub neg lt x singularity_fn eps
      !! i = Some r
    ∧ (lt zero d = true ∧ lt d eps = true → r = add v eps)
    ∧ (lt (neg eps) d = true ∧ lt d zero = true → r = sub v eps)
    ∧ (¬ (lt zero d = true ∧ lt d eps = true) →
       ¬ (lt (neg eps) d = true ∧ lt d zero = true) → r = v)
    ∧ (d = zero ∨ d = eps ∨ d = neg eps → r = v).
Proof.
  intros Hirr Hasym Hneg Heps Hv Hd.
  eexists. split; [by apply push_away_lookup|].
  split; [|split; [|split]].
  - intros [Hpos Hlt]. by rewrite (Hasym d Hpos), Hpos, Hlt.
  - intros [Hgt Hnegd]. by rewrite Hnegd, Hgt.
  - intros Hfwd Hbwd.
    destruct (lt d zero) eqn:H1, (lt (neg eps) d) eqn:H2,
      (lt zero d) eqn:H3, (lt d eps) eqn:H4; simpl; tauto.
  - intros [-> | [-> | ->]].
    + by rewrite Hirr.
    + by rewrite (Hasym eps Heps), Hirr, andb_false_r.
    + by rewrite Hirr, andb_false_r, Hneg.
Qed.

Lemma push_away_elementwise_witness :
  let x := [int 11; int 9; int 10; int 12; int 5] in
  (∀ a, number_lt a a = false)
  ∧ (∀ a, number_lt (int 0) a = true → number_lt a (int 0) = false)
  ∧ number_lt (int 0) (number_neg (int 2)) = false
  ∧ number_lt (int 0) (int 2) = true
  ∧ x !! 1%nat = Some (int 9)
  ∧ distance_to_ten x !! 1%nat = Some (number_neg (int 1))
  ∧ ∃ r,
      push_away_from_singularities number (int 0) number_add number_sub
        number_neg number_lt x distance_to_ten (int 2) !! 1%nat = Some r
      ∧ (number_lt (int 0) (number_neg (int 1)) = true
         ∧ number_lt (number_neg (int 1)) (int 2) = true →
         r = number_add (int 9) (int 2))
      ∧ (number_lt (number_neg (int 2)) (number_neg (int 1)) = true
         ∧ number_lt (number_neg (int 1)) (int 0) = true →
         r = number_sub (int 9) (int 2))
      ∧ (¬ (number_lt (int 0) (number_neg (int 1)) = true
            ∧ number_lt (number_neg (int 1)) (int 2) = true) →
         ¬ (number_lt (number_neg (int 2)) (number_neg (int 1)) = true
            ∧ number_lt (number_neg (int 1)) (int 0) = true) →
         r = int 9)
      ∧ (number_neg (int 1) = int 0 ∨ number_neg (int 1) = int 2
         ∨ number_neg (int 1) = number_neg (int 2) → r = int 9).
Proof.
  intros x.
  assert (H1 : ∀ a, number_lt a a = false) by apply number_lt_irrefl.
  assert (H2 : ∀ a, number_lt (int 0) a = true → number_lt a (int 0) = false)
    by (intros a; apply number_lt_asym).
  assert (H3 : number_lt (int 0) (number_neg (int 2)) = false)
    by (vm_compute; reflexivity).
  assert (H4 : number_lt (int 0) (int 2) = true) by (vm_compute; reflexivity).
  assert (H5 : x !! 1%nat = Some (int 9)) by reflexivity.
  assert (H6 : distance_to_ten x !! 1%nat = Some (number_neg (int 1)))
    by (vm_compute; reflexivity).
  repeat (split; [assumption|]).
  exact (push_away_elementwise (int 0) number_add number_sub number_neg
           number_lt x distance_to_ten (int 2) 1 (int 9) (number_neg (int 1))
           H1 H2 H3 H4 H5 H6).
Defined.

(** The five cases on exact numbers, with [eps = 2] and singularities at
    10: distances 1, -1, 0, 2 and -5. *)
Example push_away_cases :
  push_away_from_singularities number (int 0) number_add number_sub
    number_neg number_lt [int 11; int 9; int 10; int 12; int 5]
    distance_to_ten (int 2)
  = [int 13; int 7; int 10; int 12; int 5].
Proof.
  vm_compute. repeat first [apply Qc_is_canon; reflexivity | progress f_equal].
Qed.

(** ** Noncontiguous copies *)

Lemma noncontiguous_like_short_circuit (t : torch.Tensor) :
  torch.is_contiguous t = false → noncontiguous_like t = t.
Proof. intros Ht. unfold noncontiguous_like. by rewrite Ht. Qed.

(** C9: a tensor that is already noncontiguous is returned as it is, so a
    second application changes nothing whenever the first one produced a
    noncontiguous tensor. *)
Theorem noncontiguous_like_fixed (t : torch.Tensor) :
  (torch.is_contiguous t = false → noncontiguous_like t = t)
  ∧ (torch.is_contiguous (noncontiguous_like t) = false →
     noncontiguous_like (noncontiguous_like t) = noncontiguous_like t).
Proof.
  split; [apply noncontiguous_like_short_circuit|].
  intros Hnc. by apply noncontiguous_like_short_circuit.
Qed.

Lemma noncontiguous_like_fixed_witness :
  (torch.is_contiguous (noncontiguous_like t23) = false
   ∧ noncontiguous_like (noncontiguous_like t23) = noncontiguous_like t23)
  ∧ (torch.is_contiguous (torch.as_strided t23 [3; 2] [1; 3] 0) = false
     ∧ noncontiguous_like (torch.as_strided t23 [3; 2] [1; 3] 0)
       = torch.as_strided t23 [3; 2] [1; 3] 0).
Proof.
  split.
  - split; [reflexivity|].
    apply (noncontiguous_like_fixed t23). reflexivity.
  - split; [reflexivity|].
    apply (noncontiguous_like_fixed (torch.as_strided t23 [3; 2] [1; 3] 0)).
    reflexivity.
Defined.

(** The copy keeps shape and values and interleaves the filler. *)
Example noncontiguous_like_t23 :
  noncontiguous_like t23
  = torch.mkTensor [2; 3] [6; 2] 1
      [NaN; int 1; NaN; int 2; NaN; int 3; NaN; int 4; NaN; int 5; NaN; int 6]
      float32 "cpu" true
  ∧ torch.values (noncontiguous_like t23) = torch.values t23.
Proof. split; reflexivity. Qed.

(** A tensor with a single element is contiguous under any strides, so its
    copy is contiguous again: the proviso of C9 is needed. *)
Example noncontiguous_like_scalar :
  let t := torch.mkTensor [] [] 0 [int 7] int64 "cpu" false in
  noncontiguous_like t = torch.mkTensor [] [] 1 [int 12; int 7] int64 "cpu" false
  ∧ torch.is_contiguous (noncontiguous_like t) = true.
Proof. split; reflexivity. Qed.

Lemma to_noncontiguous_idempotent (v : pyvalue) :
  (∀ t, to_noncontiguous v = VTensor t → torch.is_contiguous t = false) →
  to_noncontiguous (to_noncontiguous v) = to_noncontiguous v.
Proof.
  destruct v as [| | | | |t|]; try reflexivity.
  intros Hnc. simpl.
  by rewrite (noncontiguous_like_short_circuit _ (Hnc _ eq_refl)).
Qed.

(** [SampleInput.noncontiguous] twice is once, when every tensor of the
    first result is noncontiguous. *)
Lemma noncontiguous_idempotent (s : SampleInput) :
  (∀ v t, v ∈ args s ++ map snd (kwargs s) →
     to_noncontiguous v = VTensor t → torch.is_contiguous t = false) →
  noncontiguous (noncontiguous s) = noncontiguous s.
Proof.
  intros Hnc. unfold noncontiguous. cbn [args kwargs]. f_equal.
  - rewrite map_map. apply map_ext_in. intros v Hv.
    apply to_noncontiguous_idempotent. intros t. apply Hnc.
    apply elem_of_app. left. by apply list_elem_of_In.
  - rewrite map_map. apply map_ext_in. intros [k v] Hkv. cbn [fst snd].
    f_equal. apply to_noncontiguous_idempotent. intros t. apply Hnc.
    apply elem_of_app. right. apply list_elem_of_In, in_map_iff.
    by exists (k, v).
Qed.

(** ** Generators *)

(** C6: the binary generator yields two samples, the first with two
    operands of shape (4, 4), the second with the same first operand and an
    operand of shape (4, 1), provided [make_tensor] returns tensors of the
    shape it is asked for. *)
Theorem elementwise_binary_generator_samples {rng : Type}
    (make_tensor : make_tensor_args → rng → torch.Tensor * rng)
    (op' : OpInfo) (device : string) (dt : dtype) (requires_grad : bool)
    (extra : list (string * pyvalue)) (g : rng) :
  returns_requested_shape make_tensor →
  ∃ a b c : torch.Tensor,
    (elementwise_binary_generator rng make_tensor op' device dt requires_grad
       extra g).1
    = [ mkSampleInput [VTensor a; VTensor b] [];
        mkSampleInput [VTensor a; VTensor c] [] ]
    ∧ torch.shape a = [4; 4]
    ∧ torch.shape b = [4; 4]
    ∧ torch.shape c = [4; 1].
Proof.
  intros Hshape.
  unfold elementwise_binary_generator, bind, ret; simpl.
  do 3 eexists. split; [reflexivity|].
  by rewrite !Hshape.
Qed.

(** C7: [var_sample_generator] runs to its end and yields 35 samples, none
    of which gives both an [unbiased] flag and a [correction] value. *)
Theorem var_sample_generator_exclusive {rng : Type}
    (make_tensor : make_tensor_args → rng → torch.Tensor * rng)
    (op' : OpInfo) (device : string) (dt : dtype) (requires_grad : bool)
    (g : rng) :
  ∃ samples : list SampleInput,
    (var_sample_generator rng make_tensor op' device dt requires_grad g).1
    = Ok samples
    ∧ length samples = 35%nat
    ∧ ∀ s, s ∈ samples →
        ¬ (specifies_unbiased s = true ∧ specifies_correction s = true).
Proof.
  eexists. split; [vm_compute; reflexivity|]. split; [reflexivity|].
  intros s Hs [Hu Hc].
  apply list_elem_of_In in Hs. simpl in Hs.
  repeat (destruct Hs as [<- | Hs]; [vm_compute in Hu, Hc; congruence|]).
  done.
Qed.

(** ** Values of the unary samples *)

Lemma for_each_cons {rng A B : Type} (x : A) (xs : list A)
    (body : A → gen rng B) (g : rng) :
  (for_each rng (x :: xs) body g).1
  = (body x g).1 :: (for_each rng xs body (body x g).2).1.
Proof. reflexivity. Qed.

Lemma for_each_elem {rng A B : Type} (xs : list A) (body : A → gen rng B)
    (g : rng) (y : B) :
  y ∈ (for_each rng xs body g).1 → ∃ x g', x ∈ xs ∧ y = (body x g').1.
Proof.
  revert g; induction xs as [|x xs IH]; intros g.
  - intros Hy. by apply elem_of_nil in Hy.
  - rewrite for_each_cons. intros [-> | Hy]%elem_of_cons.
    + exists x, g. split; [apply list_elem_of_here | done].
    + destruct (IH _ Hy) as (x' & g' & Hx' & ->).
      exists x', g'. split; [by apply list_elem_of_further | done].
Qed.

Lemma in_unit_interval (v : number) :
  in_interval (Some (int (-1))) (Some (int 1)) v = true →
  ∃ q : Qc, v = Fin q ∧ (Qc_of_Z (-1) ≤ q)%Qc ∧ (q < Qc_of_Z 1)%Qc.
Proof.
  unfold in_interval. intros [Hlo Hhi]%andb_true_iff.
  destruct v as [| |q|]; try done.
  exists q. split; [done|].
  split; [by apply number_le_Fin | by apply number_lt_Fin].
Qed.

(** C5, as [make_tensor]'s interval has it: every value of a (4, 4) tensor
    sample for acos lies in the closed-open interval [-1, 1), so it is
    never 1. *)
Theorem acos_samples_in_domain {rng : Type}
    (make_tensor : make_tensor_args → rng → torch.Tensor * rng)
    (resolve_dtypes : list dtype_like → list dtype)
    (_all_device_types : list string)
    (device : string) (dt : dtype) (requires_grad supports_numbers : bool)
    (extra : list (string * pyvalue)) (g : rng)
    (s : SampleInput) (t : torch.Tensor) (v : number) :
  draws_from_interval make_tensor →
  s ∈ (elementwise_unary_generator rng make_tensor
         (acos_opinfo resolve_dtypes _all_device_types)
         device dt requires_grad supports_numbers extra g).1 →
  VTensor t ∈ args s →
  torch.shape t = [4; 4] →
  v ∈ torch.values t →
  (∃ q : Qc, v = Fin q ∧ (Qc_of_Z (-1) ≤ q)%Qc ∧ (q < Qc_of_Z 1)%Qc)
  ∧ v ≠ int 1.
Proof.
  intros Hdraw Hs Ht Hshape Hv.
  assert (Hin : in_interval (Some (int (-1))) (Some (int 1)) v = true).
  { assert (Hmade : ∀ shape noncontig g',
      VTensor t ∈ [VTensor (make_tensor
         (mkArgs shape device dt (Some (int (-1))) (Some (int 1))
            requires_grad noncontig extra) g').1] →
      in_interval (Some (int (-1))) (Some (int 1)) v = true).
    { intros shape noncontig g' Hmem.
      apply list_elem_of_singleton in Hmem. injection Hmem as ->.
      pose proof (Hdraw (mkArgs shape device dt (Some (int (-1)))
                           (Some (int 1)) requires_grad noncontig extra) g')
        as Hall.
      rewrite Forall_forall in Hall. apply Hall; [|done].
      exists (int 0). reflexivity. }
    unfold elementwise_unary_generator in Hs.
    change (clamp_domain (domain (acos_opinfo resolve_dtypes _all_device_types)))
      with (Some (int (-1)), Some (int 1)) in Hs.
    cbv beta iota zeta in Hs. unfold bind at 1 2 3 4, ret at 3 in Hs.
    cbn [fst snd] in Hs.
    apply elem_of_app in Hs as [Hs | Hs];
      [|apply elem_of_app in Hs as [Hs | Hs];
        [|apply elem_of_app in Hs as [Hs | Hs]]].
    - apply for_each_elem in Hs as (shape & g' & _ & ->).
      by apply (Hmade shape false g').
    - apply for_each_elem in Hs as (shape & g' & _ & ->).
      by apply (Hmade shape true g').
    - apply for_each_elem in Hs as ([[shape strides] offset] & g' & Hcase & ->).
      apply list_elem_of_singleton in Ht. injection Ht as ->.
      simpl in Hshape. subst shape.
      unfold strided_cases in Hcase.
      repeat (apply elem_of_cons in Hcase as [Hcase | Hcase];
              [discriminate Hcase|]).
      by apply elem_of_nil in Hcase.
    - destruct (supports_numbers && negb (is_complex_dtype dt)).
      + apply list_elem_of_singleton in Hs as ->.
        apply list_elem_of_singleton in Ht. discriminate Ht.
      + by apply elem_of_nil in Hs. }
  split; [by apply in_unit_interval|].
  intros ->. revert Hin. unfold in_interval.
  by rewrite number_lt_irrefl, andb_false_r.
Qed.

(** ** The deterministic [make_tensor] meets the contract *)

Lemma numel_contiguous (sizes : list nat) :
  0 < torch.numel sizes →
  foldr (λ n acc, Nat.max n 1 * acc) 1 sizes = torch.numel sizes.
Proof.
  induction sizes as [|n ns IH]; [done|]. simpl. intros Hpos.
  rewrite IH by nia. nia.
Qed.

Lemma numel_cons (n : nat) (ns : list nat) :
  torch.numel (n :: ns) = n * torch.numel ns.
Proof. reflexivity. Qed.

Lemma offsets_contiguous_bound (sizes : list nat) (base : nat) :
  Forall (λ p, base ≤ p < base + torch.numel sizes)
    (torch.offsets sizes (torch.contiguous_strides sizes) base).
Proof.
  revert base; induction sizes as [|n ns IH]; intros base.
  - repeat constructor; unfold torch.numel; simpl; lia.
  - cbn [torch.offsets torch.contiguous_strides].
    apply List.Forall_flat_map, Forall_forall. intros i Hi.
    apply list_elem_of_In, in_seq in Hi.
    eapply Forall_impl; [apply IH|]. intros p Hp. cbv beta in Hp |- *.
    rewrite numel_cons.
    destruct (decide (torch.numel ns = 0)) as [Hz | Hnz]; [lia|].
    rewrite numel_contiguous in Hp by lia. nia.
Qed.

Lemma lowest_tensor_values (a : make_tensor_args) (calls : nat) (v : number) :
  v ∈ torch.values (lowest_tensor a calls).1 →
  v = lowest (mt_low a) (mt_high a).
Proof.
  unfold torch.values, torch.cells. simpl.
  intros (p & -> & Hp)%list_elem_of_fmap.
  pose proof (offsets_contiguous_bound (mt_shape a) 0) as Hbound.
  rewrite Forall_forall in Hbound. apply Hbound in Hp.
  rewrite lookup_replicate_2 by lia. done.
Qed.

Lemma lowest_in_interval (lo hi : option number) (x : number) :
  in_interval lo hi x = true → in_interval lo hi (lowest lo hi) = true.
Proof.
  unfold in_interval, lowest. intros [Hlo Hhi]%andb_true_iff.
  destruct lo as [l|].
  - rewrite (number_le_refl l x Hlo). simpl.
    destruct hi as [h|]; [|done]. by apply number_le_lt_trans with x.
  - simpl. destruct hi as [[| |h|]|]; try done.
    + by destruct x.
    + by destruct x.
    + apply number_lt_Fin, Qclt_minus_iff.
      replace (h + - (h - 1))%Qc with (Q2Qc 1) by ring. done.
Qed.

Lemma lowest_tensor_shape : returns_requested_shape lowest_tensor.
Proof. intros a g. reflexivity. Qed.

Lemma lowest_tensor_draws : draws_from_interval lowest_tensor.
Proof.
  intros a g [x Hx]. apply Forall_forall. intros v Hv.
  apply lowest_tensor_values in Hv as ->. by apply lowest_in_interval with x.
Qed.

Lemma acos_sample_4x4_yielded :
  acos_sample_4x4
  ∈ (elementwise_unary_generator nat lowest_tensor
       (acos_opinfo (λ _, []) ["cpu"]) "cpu" float32 false true [] 0).1.
Proof.
  unfold elementwise_unary_generator.
  change (clamp_domain (domain (acos_opinfo (λ _, []) ["cpu"])))
    with (Some (int (-1)), Some (int 1)).
  cbv beta iota zeta. unfold bind at 1, ret. cbn [fst snd].
  apply elem_of_app. left. unfold shapes. rewrite !for_each_cons.
  do 2 apply list_elem_of_further. apply list_elem_of_here.
Qed.

Lemma acos_samples_in_domain_witness :
  draws_from_interval lowest_tensor
  ∧ acos_sample_4x4
    ∈ (elementwise_unary_generator nat lowest_tensor
         (acos_opinfo (λ _, []) ["cpu"]) "cpu" float32 false true [] 0).1
  ∧ (∃ q : Qc, int (-1) = Fin q
       ∧ (Qc_of_Z (-1) ≤ q)%Qc ∧ (q < Qc_of_Z 1)%Qc)
  ∧ int (-1) ≠ int 1.
Proof.
  split; [exact lowest_tensor_draws|].
  split; [exact acos_sample_4x4_yielded|].
  apply (acos_samples_in_domain lowest_tensor (λ _, []) ["cpu"] "cpu" float32
           false true [] 0 acos_sample_4x4
           (torch.mkTensor [4; 4] [4; 1] 0 (replicate 16 (int (-1)))
              float32 "cpu" false)
           (int (-1))).
  - exact lowest_tensor_draws.
  - exact acos_sample_4x4_yielded.
  - apply list_elem_of_here.
  - reflexivity.
  - apply list_elem_of_here.
Defined.

(** C5 as stated fails at the lower bound: a [make_tensor] that keeps to
    the closed-open interval may return -1, and then the (4, 4) sample for
    acos holds it. *)
Lemma acos_sample_holds_lower_bound :
  ¬ (∀ (make_tensor : make_tensor_args → nat → torch.Tensor * nat)
       (s : SampleInput) (t : torch.Tensor) (v : number),
       returns_requested_shape make_tensor →
       draws_from_interval make_tensor →
       s ∈ (elementwise_unary_generator nat make_tensor
              (acos_opinfo (λ _, []) ["cpu"]) "cpu" float32 false true [] 0).1 →
       VTensor t ∈ args s →
       torch.shape t = [4; 4] →
       v ∈ torch.values t →
       v ≠ int (-1) ∧ v ≠ int 1).
Proof.
  intros Hclaim.
  destruct (Hclaim lowest_tensor acos_sample_4x4
              (torch.mkTensor [4; 4] [4; 1] 0 (replicate 16 (int (-1)))
                 float32 "cpu" false)
              (int (-1))) as [Hlow _].
  - exact lowest_tensor_shape.
  - exact lowest_tensor_draws.
  - exact acos_sample_4x4_yielded.
  - apply list_elem_of_here.
  - reflexivity.
  - apply list_elem_of_here.
  - by apply Hlow.
Qed.

Lemma elementwise_binary_generator_samples_witness :
  returns_requested_shape lowest_tensor
  ∧ ∃ a b c : torch.Tensor,
      (elementwise_binary_generator nat lowest_tensor
         (acos_opinfo (λ _, []) ["cpu"]) "cpu" float32 false [] 0).1
      = [ mkSampleInput [VTensor a; VTensor b] [];
          mkSampleInput [VTensor a; VTensor c] [] ]
      ∧ torch.shape a = [4; 4]
      ∧ torch.shape b = [4; 4]
      ∧ torch.shape c = [4; 1].
Proof.
  split; [exact lowest_tensor_shape|].
  apply (elementwise_binary_generator_samples lowest_tensor
           (acos_opinfo (λ _, []) ["cpu"]) "cpu" float32 false [] 0).
  exact lowest_tensor_shape.
Defined.

(** ** What a noncontiguous copy keeps *)

Lemma stride_product_scale (c : nat) (sizes : list nat) :
  foldr (λ n acc, Nat.max n 1 * acc) c sizes
  = c * foldr (λ n acc, Nat.max n 1 * acc) 1 sizes.
Proof. induction sizes as [|n ns IH]; simpl; [lia|]. rewrite IH. lia. Qed.

Lemma contiguous_strides_snoc (sizes : list nat) (n : nat) :
  torch.contiguous_strides (sizes ++ [n])
  = map (Nat.mul (Nat.max n 1)) (torch.contiguous_strides sizes) ++ [1].
Proof.
  induction sizes as [|k ks IH]; [reflexivity|].
  cbn [app torch.contiguous_strides map]. rewrite IH. f_equal. f_equal.
  rewrite foldr_app. cbn [foldr]. rewrite stride_product_scale. lia.
Qed.

Lemma select_last_new_empty (t : torch.Tensor) (sizes : list nat) (i : nat) :
  torch.shape (torch.select_last (torch.new_empty t (sizes ++ [2])) i) = sizes
  ∧ torch.stride (torch.select_last (torch.new_empty t (sizes ++ [2])) i)
    = map (Nat.mul 2) (torch.contiguous_strides sizes)
  ∧ torch.storage_offset
      (torch.select_last (torch.new_empty t (sizes ++ [2])) i) = i.
Proof.
  unfold torch.select_last, torch.new_empty. cbn [torch.shape torch.stride
    torch.storage_offset].
  rewrite contiguous_strides_snoc, !removelast_last, last_last.
  repeat split. lia.
Qed.

(** The copy has the shape, dtype, device and [requires_grad] flag of the
    tensor it is made from. *)
Theorem noncontiguous_like_metadata (t : torch.Tensor) :
  torch.shape (noncontiguous_like t) = torch.shape t
  ∧ torch.dtype (noncontiguous_like t) = torch.dtype t
  ∧ torch.device (noncontiguous_like t) = torch.device t
  ∧ torch.requires_grad (noncontiguous_like t) = torch.requires_grad t.
Proof.
  unfold noncontiguous_like. destruct (negb (torch.is_contiguous t)); [done|].
  cbn [torch.requires_grad_ torch.select_last torch.setitem_last
       torch.new_empty torch.shape torch.dtype torch.device
       torch.requires_grad].
  by rewrite removelast_last.
Qed.

Lemma map_mul_one (l : list nat) : map (Nat.mul 1) l = l.
Proof.
  induction l as [|x l IH]; cbn [map]; [done|]. rewrite IH. f_equal. lia.
Qed.

Lemma numel_snoc (sizes : list nat) (n : nat) :
  torch.numel (sizes ++ [n]) = torch.numel sizes * n.
Proof.
  unfold torch.numel. induction sizes as [|k ks IH]; simpl; [lia|].
  rewrite IH. lia.
Qed.

(** Strides that are a multiple [c] of the contiguous ones fail the scan
    as soon as a dimension has a size other than 1, unless [c] is the
    expected innermost stride. *)
Lemma strides_match_scaled (sizes : list nat) (c expected : nat) :
  c ≠ expected →
  Exists (λ n, n ≠ 1) sizes →
  torch.strides_match (rev sizes)
    (rev (map (Nat.mul c) (torch.contiguous_strides sizes))) expected = false.
Proof.
  intros Hc. induction sizes as [|n sizes IH] using rev_ind.
  - intros Hex. by apply Exists_nil in Hex.
  - intros Hex. rewrite contiguous_strides_snoc, map_app, !rev_app_distr.
    cbn [rev app map torch.strides_match].
    destruct (Nat.eqb_spec n 1) as [-> | Hn].
    + apply Exists_app in Hex as [Hex | Hex].
      * change (Nat.max 1 1) with 1. rewrite map_mul_one. by apply IH.
      * apply Exists_cons in Hex as [Hex | Hex]; [done|].
        by apply Exists_nil in Hex.
    + replace (c * 1) with c by lia.
      destruct (Nat.eqb_spec c expected); [done|]. done.
Qed.

Lemma numel_all_ones (sizes : list nat) :
  Forall (λ n, n = 1) sizes → torch.numel sizes = 1.
Proof.
  unfold torch.numel. induction 1 as [|n ns -> _ IH]; simpl; [done|].
  rewrite IH. lia.
Qed.

Lemma noncontiguous_like_breaks_layout (t : torch.Tensor) :
  (2 ≤ torch.numel (torch.shape t))%nat →
  torch.is_contiguous (noncontiguous_like t) = false.
Proof.
  intros Hnumel. unfold noncontiguous_like.
  destruct (torch.is_contiguous t) eqn:Hcontig; [|done]. cbn [negb].
  unfold torch.is_contiguous, torch.requires_grad_.
  cbn [torch.shape torch.stride].
  destruct (select_last_new_empty t (torch.shape t) 1) as (Hsh & Hst & _).
  cbn [torch.setitem_last torch.select_last torch.shape torch.stride] in *.
  rewrite Hsh, Hst. apply orb_false_iff. split.
  - apply Nat.eqb_neq. lia.
  - apply strides_match_scaled; [lia|].
    destruct (decide (Exists (λ n, n ≠ 1) (torch.shape t))) as [Hex | Hnex];
      [done|].
    apply not_Exists_Forall in Hnex; [|intros n; apply _].
    assert (Hones : Forall (λ n, n = 1) (torch.shape t)).
    { eapply Forall_impl; [exact Hnex|]. intros n Hn. simpl in Hn. lia. }
    apply numel_all_ones in Hones. lia.
Qed.



(** *** The values of the copy *)

Lemma seq_blocks (n m : nat) :
  seq 0 (n * m)
  = flat_map (λ i, map (λ k, i * m + k) (seq 0 m)) (seq 0 n).
Proof.
  induction n as [|n IH]; [reflexivity|].
  rewrite seq_S, flat_map_app. cbn [flat_map]. rewrite app_nil_r, <- IH.
  replace (S n * m) with (n * m + m) by lia.
  rewrite seq_app. f_equal. cbn [Nat.add].
  change (map (λ k, n * m + k) (seq 0 m)) with (Nat.add (n * m) <$> seq 0 m).
  by rewrite fmap_add_seq, Nat.add_0_r.
Qed.

(** The cells of a view whose strides are [c] times the contiguous ones:
    every [c]-th cell from the base. *)
Lemma offsets_scaled (c : nat) (sizes : list nat) (base : nat) :
  torch.offsets sizes (map (Nat.mul c) (torch.contiguous_strides sizes)) base
  = map (λ k, base + c * k) (seq 0 (torch.numel sizes)).
Proof.
  revert base; induction sizes as [|n ns IH]; intros base.
  - cbn. f_equal. lia.
  - cbn [torch.contiguous_strides map torch.offsets]. rewrite numel_cons.
    destruct (decide (torch.numel ns = 0)) as [Hz | Hnz].
    + rewrite Hz, Nat.mul_0_r. cbn [seq map].
      induction (seq 0 n) as [|i l IHl]; [reflexivity|].
      cbn [flat_map]. by rewrite IH, Hz, IHl.
    + rewrite numel_contiguous by lia. rewrite seq_blocks.
      rewrite !flat_map_concat_map, concat_map, map_map. f_equal.
      apply map_ext. intros i. rewrite IH, map_map. apply map_ext.
      intros k. lia.
Qed.

Lemma offsets_length (sizes strides : list nat) (base : nat) :
  length strides = length sizes →
  length (torch.offsets sizes strides base) = torch.numel sizes.
Proof.
  revert strides base; induction sizes as [|n ns IH]; intros strides base.
  - reflexivity.
  - destruct strides as [|s ss]; [discriminate|]. intros [= Hlen].
    cbn [torch.offsets]. rewrite numel_cons.
    assert (Hflat : ∀ l : list nat,
      length (flat_map (λ i, torch.offsets ns ss (base + i * s)) l)
      = length l * torch.numel ns).
    { induction l as [|i l IHl]; [reflexivity|].
      cbn [flat_map length]. rewrite length_app, IH, IHl by done. lia. }
    by rewrite Hflat, length_seq.
Qed.

Lemma write_cells_length (st : list number) (ps : list nat)
    (vs : list number) :
  length (write_cells st ps vs) = length st.
Proof.
  unfold write_cells. revert st vs; induction ps as [|p ps IH]; intros st vs.
  - reflexivity.
  - destruct vs as [|v vs]; [reflexivity|]. cbn [zip zip_with foldl].
    by rewrite IH, length_insert.
Qed.

Lemma write_cells_other (st : list number) (ps : list nat)
    (vs : list number) (q : nat) :
  q ∉ ps → write_cells st ps vs !! q = st !! q.
Proof.
  unfold write_cells. revert st vs; induction ps as [|p ps IH]; intros st vs Hq.
  - reflexivity.
  - destruct vs as [|v vs]; [reflexivity|]. cbn [zip zip_with foldl].
    apply not_elem_of_cons in Hq as [Hne Hq].
    rewrite IH by done. by apply list_lookup_insert_ne.
Qed.

Lemma write_cells_read (st : list number) (ps : list nat)
    (vs : list number) :
  NoDup ps → Forall (λ p, p < length st) ps → length vs = length ps →
  map (λ p, default NaN (write_cells st ps vs !! p)) ps = vs.
Proof.
  revert st vs; induction ps as [|p ps IH]; intros st vs Hnd Hlt Hlen.
  - by destruct vs.
  - destruct vs as [|v vs]; [discriminate|]. injection Hlen as Hlen.
    apply NoDup_cons in Hnd as [Hp Hnd]. apply Forall_cons in Hlt as [Hp' Hlt].
    cbn [map]. f_equal.
    + unfold write_cells. cbn [zip zip_with foldl].
      change (foldl _ ?s (zip ps vs)) with (write_cells s ps vs).
      rewrite write_cells_other by done. cbn [fst snd].
      by rewrite list_lookup_insert_eq.
    + unfold write_cells. cbn [zip zip_with foldl].
      change (foldl _ ?s (zip ps vs)) with (write_cells s ps vs).
      apply IH; [done| |done]. by rewrite length_insert.
Qed.

(** The copy holds the values of the tensor it is made from, in the same
    order; the filler is in no position that is read.  The tensor has one
    stride for each dimension. *)
Theorem noncontiguous_like_values (t : torch.Tensor) :
  length (torch.stride t) = length (torch.shape t) →
  torch.values (noncontiguous_like t) = torch.values t.
Proof.
  intros Hwf. unfold noncontiguous_like.
  destruct (torch.is_contiguous t); [|done]. cbn [negb].
  match goal with
  | |- context [replicate _ ?v] => set (value := v); clearbody value
  end.
  set (m := torch.numel (torch.shape t)).
  destruct (select_last_new_empty t (torch.shape t) 0) as (Hsh0 & Hst0 & Hof0).
  destruct (select_last_new_empty t (torch.shape t) 1) as (Hsh1 & Hst1 & Hof1).
  assert (Hcells : ∀ i,
    torch.cells (torch.select_last (torch.new_empty t (torch.shape t ++ [2])) i)
    = map (λ k, i + 2 * k) (seq 0 m)).
  { intros i. unfold torch.cells.
    destruct (select_last_new_empty t (torch.shape t) i) as (-> & -> & ->).
    apply offsets_scaled. }
  set (fresh := torch.new_empty t (torch.shape t ++ [2])) in *.
  change (torch.values (torch.requires_grad_ (torch.select_last
            (torch.setitem_last (torch.setitem_last fresh 0
               (replicate m value)) 1 (torch.values t)) 1)
            (torch.requires_grad t)))
    with (map (λ p, default NaN
                 (write_cells
                    (write_cells (torch.storage fresh)
                       (torch.cells (torch.select_last fresh 0))
                       (replicate m value))
                    (torch.cells (torch.select_last fresh 1))
                    (torch.values t) !! p))
            (torch.cells (torch.select_last fresh 1))).
  rewrite !Hcells.
  apply write_cells_read.
  - apply NoDup_fmap_2; [intros j k Hjk; lia | apply NoDup_seq].
  - apply Forall_forall. intros p (k & -> & Hk)%list_elem_of_fmap.
    apply elem_of_seq in Hk.
    rewrite write_cells_length. unfold fresh, torch.new_empty.
    cbn [torch.storage]. rewrite length_replicate, numel_snoc. fold m. lia.
  - rewrite length_map, length_seq. unfold torch.values.
    rewrite length_map. by apply offsets_length.
Qed.

Lemma noncontiguous_like_values_witness :
  length (torch.stride t23) = length (torch.shape t23)
  ∧ torch.values (noncontiguous_like t23) = torch.values t23.
Proof.
  assert (H : length (torch.stride t23) = length (torch.shape t23))
    by reflexivity.
  split; [exact H|]. exact (noncontiguous_like_values t23 H).
Defined.

(** ** More on the selection of decorators *)

(** The decorators of a directive list that is the concatenation of two
    lists are those of the first list followed by those of the second. *)
Theorem test_decorators_app (self : OpInfo) (first second : list DecorateInfo)
    (test_name : string) (executor : Executor.t) (devicetype : string)
    (dt : dtype) :
  test_directives self = first ++ second →
  test_decorators self test_name executor devicetype dt
  = test_decorators_from [] first test_name executor devicetype dt
    ++ test_decorators_from [] second test_name executor devicetype dt.
Proof.
  intros Hsplit. unfold test_decorators.
  rewrite Hsplit, !test_decorators_from_spec. cbn [app].
  by rewrite List.filter_app, map_app.
Qed.

Lemma test_decorators_app_witness :
  let info :=
    mkOpInfo (mkCallable "add") "add" ["cpu"] [] binary_generator
      [nvfuser_only; nvfuser_only] (mkDomain None None) in
  test_directives info = [nvfuser_only] ++ [nvfuser_only]
  ∧ test_decorators info "t" (Executor.mk "nvFuser" "1") "cpu" float16
    = test_decorators_from [] [nvfuser_only] "t" (Executor.mk "nvFuser" "1")
        "cpu" float16
      ++ test_decorators_from [] [nvfuser_only] "t"
           (Executor.mk "nvFuser" "1") "cpu" float16.
Proof.
  intros info.
  assert (H : test_directives info = [nvfuser_only] ++ [nvfuser_only])
    by reflexivity.
  split; [exact H|].
  exact (test_decorators_app info [nvfuser_only] [nvfuser_only] "t"
           (Executor.mk "nvFuser" "1") "cpu" float16 H).
Defined.

(** [test_decorators] never invents or reorders a decorator: its result is
    a sublist of the decorators of all directives. *)
Theorem test_decorators_sublist (self : OpInfo) (test_name : string)
    (executor : Executor.t) (devicetype : string) (dt : dtype) :
  sublist (test_decorators self test_name executor devicetype dt)
    (map decorator (test_directives self)).
Proof.
  unfold test_decorators. rewrite test_decorators_from_spec. cbn [app].
  induction (test_directives self) as [|d ds IH]; cbn [List.filter map].
  - constructor.
  - destruct (is_active d test_name executor devicetype dt); cbn [map].
    + by apply sublist_skip.
    + by apply sublist_cons.
Qed.

(** Directives switched off by [active_if] can be dropped from the list
    without changing the answer for any candidate. *)
Theorem test_decorators_inactive (self : OpInfo) (test_name : string)
    (executor : Executor.t) (devicetype : string) (dt : dtype) :
  test_decorators self test_name executor devicetype dt
  = test_decorators_from [] (List.filter active_if (test_directives self))
      test_name executor devicetype dt.
Proof.
  unfold test_decorators. rewrite !test_decorators_from_spec. cbn [app].
  f_equal. induction (test_directives self) as [|d ds IH]; [done|].
  cbn [List.filter].
  destruct (active_if d) eqn:Hact.
  - cbn [List.filter].
    destruct (is_active d test_name executor devicetype dt); by rewrite IH.
  - assert (Hoff : is_active d test_name executor devicetype dt = false)
      by (unfold is_active; by rewrite Hact).
    by rewrite Hoff.
Qed.

(** Unsetting filters of a directive can only make it match more
    candidates. *)
Theorem is_active_fewer_filters (m m' : DecorateInfo) (test_name : string)
    (executor : Executor.t) (devicetype : string) (dt : dtype) :
  active_if m' = active_if m →
  (test_template_name m' = None ∨ test_template_name m' = test_template_name m) →
  (executors m' = None ∨ executors m' = executors m) →
  (devicetypes m' = None ∨ devicetypes m' = devicetypes m) →
  (dtypes m' = None ∨ dtypes m' = dtypes m) →
  is_active m test_name executor devicetype dt = true →
  is_active m' test_name executor devicetype dt = true.
Proof.
  unfold is_active. intros -> Htn Hes Hds Hdts.
  rewrite !andb_true_iff. intros [[[[Hact He] Hn] Hd] Hdt].
  repeat split; [done|..].
  - by destruct Hes as [-> | ->].
  - by destruct Htn as [-> | ->].
  - by destruct Hds as [-> | ->].
  - by destruct Hdts as [-> | ->].
Qed.

Lemma is_active_fewer_filters_witness :
  let m := mkDecorateInfo xfail (Some "test_a") (Some (PyTuple ["nvFuser"]))
             (Some ["cpu"]) (Some [float16]) true in
  active_if nvfuser_only = active_if m
  ∧ (test_template_name nvfuser_only = None
     ∨ test_template_name nvfuser_only = test_template_name m)
  ∧ (executors nvfuser_only = None ∨ executors nvfuser_only = executors m)
  ∧ (devicetypes nvfuser_only = None
     ∨ devicetypes nvfuser_only = devicetypes m)
  ∧ (dtypes nvfuser_only = None ∨ dtypes nvfuser_only = dtypes m)
  ∧ is_active m "test_a" (Executor.mk "nvFuser" "1") "cpu" float16 = true
  ∧ is_active nvfuser_only "test_a" (Executor.mk "nvFuser" "1") "cpu" float16
    = true.
Proof.
  intros m.
  assert (H0 : active_if nvfuser_only = active_if m) by reflexivity.
  assert (H1 : test_template_name nvfuser_only = None
               ∨ test_template_name nvfuser_only = test_template_name m)
    by (left; reflexivity).
  assert (H2 : executors nvfuser_only = None
               ∨ executors nvfuser_only = executors m)
    by (right; reflexivity).
  assert (H3 : devicetypes nvfuser_only = None
               ∨ devicetypes nvfuser_only = devicetypes m)
    by (left; reflexivity).
  assert (H4 : dtypes nvfuser_only = None ∨ dtypes nvfuser_only = dtypes m)
    by (left; reflexivity).
  assert (H5 : is_active m "test_a" (Executor.mk "nvFuser" "1") "cpu" float16
               = true) by reflexivity.
  repeat (split; [assumption|]).
  exact (is_active_fewer_filters m nvfuser_only "test_a"
           (Executor.mk "nvFuser" "1") "cpu" float16 H0 H1 H2 H3 H4 H5).
Defined.

(** ** Every unary sample stays in the domain *)

Lemma strided_cases_in_bounds (shape strides : list nat) (offset p : nat) :
  (shape, strides, offset) ∈ strided_cases →
  p ∈ torch.offsets shape strides offset →
  (p < 500)%nat.
Proof.
  intros Hcase Hp.
  assert (Hall : forallb (λ '(sh, st, o),
                   forallb (λ q : nat, (q <? 500)%nat) (torch.offsets sh st o))
                   strided_cases = true) by (vm_compute; reflexivity).
  rewrite forallb_forall in Hall.
  apply list_elem_of_In in Hcase. specialize (Hall _ Hcase). cbn beta iota in Hall.
  rewrite forallb_forall in Hall. apply list_elem_of_In in Hp.
  by apply Nat.ltb_lt, Hall.
Qed.

(** A view of a contiguous one-dimensional tensor that addresses cells
    inside it holds values of that tensor. *)
Lemma as_strided_values (t : torch.Tensor) (n : nat)
    (shape strides : list nat) (offset : nat) (v : number) :
  torch.shape t = [n] → torch.stride t = [1] → torch.storage_offset t = 0%nat →
  (∀ p, p ∈ torch.offsets shape strides offset → (p < n)%nat) →
  v ∈ torch.values (torch.as_strided t shape strides offset) →
  v ∈ torch.values t.
Proof.
  intros Hshape Hstride Hoffset Hbound.
  unfold torch.values, torch.cells.
  cbn [torch.as_strided torch.shape torch.stride torch.storage_offset
       torch.storage].
  intros (p & -> & Hp)%list_elem_of_fmap.
  rewrite Hshape, Hstride, Hoffset. apply list_elem_of_fmap.
  exists p. split; [done|].
  change [1] with (map (Nat.mul 1) (torch.contiguous_strides [n])).
  rewrite offsets_scaled. apply list_elem_of_fmap. exists p.
  split; [lia|]. apply elem_of_seq. unfold torch.numel. cbn [foldr].
  specialize (Hbound p Hp). lia.
Qed.

Lemma item_in_values (t : torch.Tensor) :
  torch.shape t = [] → torch.item t ∈ torch.values t.
Proof.
  intros Hshape. unfold torch.item, torch.values, torch.cells.
  rewrite Hshape. cbn. apply list_elem_of_here.
Qed.

(** For any operator, every value of every tensor sample of the unary
    generator, and the scalar sample, lies in the interval the generator
    asks [make_tensor] for: the operator's domain clamped to the window.
    The views of the strided cases read only cells of their 500-element
    buffer. *)
Theorem elementwise_unary_generator_in_domain {rng : Type}
    (make_tensor : make_tensor_args → rng → torch.Tensor * rng)
    (op' : OpInfo) (device : string) (dt : dtype)
    (requires_grad supports_numbers : bool)
    (extra : list (string * pyvalue)) (g : rng) (s : SampleInput) :
  draws_from_interval make_tensor →
  returns_requested_shape make_tensor →
  returns_contiguous make_tensor →
  (∃ x, in_interval (clamp_domain (domain op')).1
          (clamp_domain (domain op')).2 x = true) →
  s ∈ (elementwise_unary_generator rng make_tensor op' device dt
         requires_grad supports_numbers extra g).1 →
  (∀ t v, VTensor t ∈ args s → v ∈ torch.values t →
     in_interval (clamp_domain (domain op')).1
       (clamp_domain (domain op')).2 v = true)
  ∧ (∀ a, VNumber a ∈ args s →
       in_interval (clamp_domain (domain op')).1
         (clamp_domain (domain op')).2 a = true).
Proof.
  intros Hdraw Hshape Hcontig Hsome Hs.
  unfold elementwise_unary_generator in Hs.
  destruct (clamp_domain (domain op')) as [lo hi]. cbn [fst snd] in *.
  assert (Hmade : ∀ a g' v,
    mt_low a = lo → mt_high a = hi →
    v ∈ torch.values (make_tensor a g').1 → in_interval lo hi v = true).
  { intros a g' v Hlo Hhi Hv. pose proof (Hdraw a g') as Hall.
    rewrite Hlo, Hhi, Forall_forall in Hall. by apply Hall. }
  cbv beta iota zeta in Hs. unfold bind at 1 2 3 4, ret at 3 in Hs.
  cbn [fst snd] in Hs.
  apply elem_of_app in Hs as [Hs | Hs];
    [|apply elem_of_app in Hs as [Hs | Hs];
      [|apply elem_of_app in Hs as [Hs | Hs]]].
  - apply for_each_elem in Hs as (shape & g' & _ & ->).
    split; [|intros a Ha; apply list_elem_of_singleton in Ha; discriminate].
    intros t v Ht Hv. apply list_elem_of_singleton in Ht. injection Ht as ->.
    eapply Hmade; [| |exact Hv]; reflexivity.
  - apply for_each_elem in Hs as (shape & g' & _ & ->).
    split; [|intros a Ha; apply list_elem_of_singleton in Ha; discriminate].
    intros t v Ht Hv. apply list_elem_of_singleton in Ht. injection Ht as ->.
    eapply Hmade; [| |exact Hv]; reflexivity.
  - apply for_each_elem in Hs as ([[shape strides] offset] & g' & Hcase & ->).
    split; [|intros a Ha; apply list_elem_of_singleton in Ha; discriminate].
    intros t v Ht Hv. apply list_elem_of_singleton in Ht. injection Ht as ->.
    unfold bind, ret in Hv. cbn [fst snd] in Hv.
    set (buffer := mkArgs [500] device dt lo hi requires_grad false extra)
      in Hv.
    destruct (Hcontig buffer g' eq_refl) as [Hst Hof].
    apply (Hmade buffer g' v eq_refl eq_refl).
    eapply (as_strided_values _ 500); [apply Hshape|exact Hst|exact Hof| |done].
    intros p Hp. by eapply strided_cases_in_bounds.
  - destruct (supports_numbers && negb (is_complex_dtype dt)).
    + apply list_elem_of_singleton in Hs as ->.
      split; [intros t v Ht; apply list_elem_of_singleton in Ht; discriminate|].
      intros a Ha. apply list_elem_of_singleton in Ha. injection Ha as ->.
      unfold make_number, bind, ret. cbn [fst snd].
      eapply Hmade; [| |apply item_in_values, Hshape]; reflexivity.
    + by apply elem_of_nil in Hs.
Qed.

Lemma lowest_tensor_contiguous : returns_contiguous lowest_tensor.
Proof. intros a g _. split; reflexivity. Qed.

Lemma elementwise_unary_generator_in_domain_witness :
  draws_from_interval lowest_tensor
  ∧ returns_requested_shape lowest_tensor
  ∧ returns_contiguous lowest_tensor
  ∧ (∃ x, in_interval (clamp_domain (domain (acos_opinfo (λ _, []) ["cpu"]))).1
            (clamp_domain (domain (acos_opinfo (λ _, []) ["cpu"]))).2 x = true)
  ∧ acos_sample_4x4
    ∈ (elementwise_unary_generator nat lowest_tensor
         (acos_opinfo (λ _, []) ["cpu"]) "cpu" float32 false true [] 0).1
  ∧ (∀ t v, VTensor t ∈ args acos_sample_4x4 → v ∈ torch.values t →
       in_interval (clamp_domain (domain (acos_opinfo (λ _, []) ["cpu"]))).1
         (clamp_domain (domain (acos_opinfo (λ _, []) ["cpu"]))).2 v = true)
  ∧ (∀ a, VNumber a ∈ args acos_sample_4x4 →
       in_interval (clamp_domain (domain (acos_opinfo (λ _, []) ["cpu"]))).1
         (clamp_domain (domain (acos_opinfo (λ _, []) ["cpu"]))).2 a = true).
Proof.
  assert (Hsome : ∃ x,
    in_interval (clamp_domain (domain (acos_opinfo (λ _, []) ["cpu"]))).1
      (clamp_domain (domain (acos_opinfo (λ _, []) ["cpu"]))).2 x = true)
    by (exists (int 0); reflexivity).
  split; [exact lowest_tensor_draws|].
  split; [exact lowest_tensor_shape|].
  split; [exact lowest_tensor_contiguous|].
  split; [exact Hsome|].
  split; [exact acos_sample_4x4_yielded|].
  exact (elementwise_unary_generator_in_domain lowest_tensor
           (acos_opinfo (λ _, []) ["cpu"]) "cpu" float32
           false true [] 0 acos_sample_4x4 lowest_tensor_draws
           lowest_tensor_shape lowest_tensor_contiguous Hsome
           acos_sample_4x4_yielded).
Defined.

Lemma for_each_map {rng A B C : Type} (f : B → C) (h : A → C)
    (xs : list A) (body : A → gen rng B) (g : rng) :
  (∀ x g', f (body x g').1 = h x) →
  map f (for_each rng xs body g).1 = map h xs.
Proof.
  intros Hbody. revert g; induction xs as [|x xs IH]; intros g; [done|].
  rewrite for_each_cons. cbn [map]. by rewrite Hbody, IH.
Qed.

(** The four runs of the unary generator. *)
Lemma elementwise_unary_generator_parts {rng : Type}
    (make_tensor : make_tensor_args → rng → torch.Tensor * rng)
    (op' : OpInfo) (device : string) (dt : dtype)
    (requires_grad supports_numbers : bool)
    (extra : list (string * pyvalue)) (g : rng) :
  let make_arg (shape : list nat) (noncontig : bool) :=
    make_tensor (mkArgs shape device dt (clamp_domain (domain op')).1
                   (clamp_domain (domain op')).2 requires_grad noncontig
                   extra) in
  ∃ g1 g2 g3 : rng,
    (elementwise_unary_generator rng make_tensor op' device dt requires_grad
       supports_numbers extra g).1
    = (for_each rng shapes (λ shape,
         bind rng (make_arg shape false)
           (λ t, ret rng (mkSampleInput [VTensor t] []))) g).1
      ++ (for_each rng shapes (λ shape,
            bind rng (make_arg shape true)
              (λ t, ret rng (mkSampleInput [VTensor t] []))) g1).1
      ++ (for_each rng strided_cases (λ '(shape, strides, offset),
            bind rng (make_arg [500] false)
              (λ t, ret rng (mkSampleInput
                 [VTensor (torch.as_strided t shape strides offset)] []))) g2).1
      ++ (if supports_numbers && negb (is_complex_dtype dt)
          then [mkSampleInput
                  [VNumber (make_number rng make_tensor dt
                              (clamp_domain (domain op')).1
                              (clamp_domain (domain op')).2 extra g3).1] []]
          else []).
Proof.
  intros make_arg. subst make_arg. unfold elementwise_unary_generator.
  destruct (clamp_domain (domain op')) as [lo hi]. cbn [fst snd].
  do 3 eexists.
  destruct (supports_numbers && negb (is_complex_dtype dt)); reflexivity.
Qed.

Lemma for_each_map_in {rng A B C : Type} (f : B → C) (h : A → C)
    (xs : list A) (body : A → gen rng B) (g : rng) :
  (∀ x g', x ∈ xs → f (body x g').1 = h x) →
  map f (for_each rng xs body g).1 = map h xs.
Proof.
  revert g; induction xs as [|x xs IH]; intros g Hbody; [done|].
  rewrite for_each_cons. cbn [map].
  rewrite Hbody by apply list_elem_of_here. f_equal.
  apply IH. intros x' g' Hx'. apply Hbody. by apply list_elem_of_further.
Qed.

(** Every shape of the unary generator but the scalar shape has two or
    more elements. *)
Lemma shapes_numel (shape : list nat) :
  shape ∈ shapes → shape = [] ∨ (2 ≤ torch.numel shape)%nat.
Proof.
  unfold shapes. intros Hshape.
  repeat (apply elem_of_cons in Hshape as [-> | Hshape];
          [first [by left | right; unfold torch.numel; cbn [foldr]; lia]|]).
  by apply elem_of_nil in Hshape.
Qed.

Lemma strided_cases_noncontiguous (t : torch.Tensor)
    (shape strides : list nat) (offset : nat) :
  (shape, strides, offset) ∈ strided_cases →
  torch.is_contiguous (torch.as_strided t shape strides offset) = false.
Proof.
  unfold strided_cases. intros Hcase.
  repeat (apply elem_of_cons in Hcase as [[= -> -> ->] | Hcase];
          [reflexivity|]).
  by apply elem_of_nil in Hcase.
Qed.

(** The unary generator yields, in this order, one contiguous tensor for
    each of the five shapes, one tensor asked noncontiguous for each of
    them (noncontiguous but for the scalar shape, which has one element),
    one noncontiguous view for each of the six strided cases and, when
    the operator takes numbers and the dtype is not complex, the number
    [make_number] draws on the cpu with the dtype and the bounds of the
    call; every sample is a single positional argument. *)
Theorem elementwise_unary_generator_shapes {rng : Type}
    (make_tensor : make_tensor_args → rng → torch.Tensor * rng)
    (op' : OpInfo) (device : string) (dt : dtype)
    (requires_grad supports_numbers : bool)
    (extra : list (string * pyvalue)) (g : rng) :
  returns_requested_shape make_tensor →
  honours_noncontiguous make_tensor →
  ∃ (tensors : list SampleInput) (g3 : rng),
    (elementwise_unary_generator rng make_tensor op' device dt requires_grad
       supports_numbers extra g).1
    = tensors
      ++ (if supports_numbers && negb (is_complex_dtype dt)
          then [mkSampleInput
                  [VNumber (make_number rng make_tensor dt
                              (clamp_domain (domain op')).1
                              (clamp_domain (domain op')).2 extra g3).1] []]
          else [])
    ∧ map tensor_layout_of tensors
      = map (λ shape, Some (shape, true)) shapes
        ++ map (λ shape, Some (shape, bool_decide (shape = []))) shapes
        ++ map (λ c, Some (c.1.1, false)) strided_cases
    ∧ map tensor_shape_of
        (elementwise_unary_generator rng make_tensor op' device dt
           requires_grad supports_numbers extra g).1
      = map Some (shapes ++ shapes ++ map (λ c, c.1.1) strided_cases)
        ++ (if supports_numbers && negb (is_complex_dtype dt)
            then [None] else [])
    ∧ Forall (λ s, length (args s) = 1%nat ∧ kwargs s = [])
        (elementwise_unary_generator rng make_tensor op' device dt
           requires_grad supports_numbers extra g).1.
Proof.
  intros Hshape Hlayout.
  destruct (elementwise_unary_generator_parts make_tensor op' device dt
              requires_grad supports_numbers extra g) as (g1 & g2 & g3 & ->).
  eexists _, g3. split; [by rewrite !app_assoc|]. split; [|split].
  - rewrite !map_app, <- !app_assoc.
    apply f_equal2; [|apply f_equal2].
    + apply for_each_map. intros shape g'. unfold tensor_layout_of, bind, ret.
      cbn [fst snd args]. rewrite Hshape.
      by rewrite (proj1 (Hlayout _ _)).
    + apply for_each_map_in. intros shape g' Hin.
      unfold tensor_layout_of, bind, ret. cbn [fst snd args].
      rewrite Hshape. cbn [mt_shape]. do 2 f_equal.
      destruct (shapes_numel shape Hin) as [-> | Hnumel].
      * unfold torch.is_contiguous. by rewrite Hshape.
      * rewrite (proj2 (Hlayout _ _)) by done.
        symmetry. apply bool_decide_eq_false. intros ->.
        unfold torch.numel in Hnumel. cbn in Hnumel. lia.
    + apply for_each_map_in. intros [[shape strides] offset] g' Hin.
      unfold tensor_layout_of, bind, ret. cbn [fst snd args].
      by rewrite (strided_cases_noncontiguous _ _ _ _ Hin).
  - rewrite !map_app, <- !app_assoc.
    apply f_equal2; [|apply f_equal2; [|apply f_equal2]].
    + apply for_each_map. intros shape g'. unfold tensor_shape_of, bind, ret.
      cbn [fst snd args]. by rewrite Hshape.
    + apply for_each_map. intros shape g'. unfold tensor_shape_of, bind, ret.
      cbn [fst snd args]. by rewrite Hshape.
    + rewrite map_map. apply for_each_map. by intros [[shape strides] offset] g'.
    + by destruct (supports_numbers && negb (is_complex_dtype dt)).
  - rewrite !Forall_app. repeat split.
    + apply Forall_forall. by intros s (shape & g' & _ & ->)%for_each_elem.
    + apply Forall_forall. by intros s (shape & g' & _ & ->)%for_each_elem.
    + apply Forall_forall.
      by intros s ([[shape strides] offset] & g' & _ & ->)%for_each_elem.
    + destruct (supports_numbers && negb (is_complex_dtype dt));
        repeat constructor.
Qed.

Lemma map_mul_mul (c n : nat) (l : list nat) :
  map (Nat.mul c) (map (Nat.mul n) l) = map (Nat.mul (c * n)) l.
Proof. rewrite map_map. apply map_ext. intros x. lia. Qed.

(** Strides that are [c] times the contiguous ones pass the scan that
    expects [c] innermost, when no dimension is empty. *)
Lemma strides_match_contiguous (sizes : list nat) (c : nat) :
  torch.numel sizes ≠ 0%nat →
  torch.strides_match (rev sizes)
    (rev (map (Nat.mul c) (torch.contiguous_strides sizes))) c = true.
Proof.
  revert c; induction sizes as [|n sizes IH] using rev_ind; intros c Hnumel.
  - reflexivity.
  - rewrite numel_snoc in Hnumel.
    rewrite contiguous_strides_snoc, map_app, !rev_app_distr.
    cbn [rev app map torch.strides_match].
    destruct (Nat.eqb_spec n 1) as [-> | Hn].
    + change (Nat.max 1 1) with 1%nat. rewrite map_mul_one.
      apply IH. lia.
    + replace (c * 1)%nat with c by lia. rewrite Nat.eqb_refl. cbn [andb].
      replace (Nat.max n 1) with n by lia. rewrite map_mul_mul.
      apply IH. lia.
Qed.

Lemma lowest_tensor_is_contiguous (a : make_tensor_args) (calls : nat) :
  torch.is_contiguous (lowest_tensor a calls).1 = true.
Proof.
  unfold torch.is_contiguous, lowest_tensor.
  cbn [fst torch.shape torch.stride].
  destruct (Nat.eqb_spec (torch.numel (mt_shape a)) 0) as [|Hnumel]; [done|].
  cbn [orb]. rewrite <- (map_mul_one (torch.contiguous_strides (mt_shape a))).
  by apply strides_match_contiguous.
Qed.

Lemma noncontiguous_like_shape (t : torch.Tensor) :
  torch.shape (noncontiguous_like t) = torch.shape t.
Proof.
  unfold noncontiguous_like. destruct (negb (torch.is_contiguous t)); [done|].
  cbn [torch.requires_grad_ torch.select_last torch.setitem_last
       torch.new_empty torch.shape].
  by rewrite removelast_last.
Qed.

Lemma layout_tensor_shape : returns_requested_shape layout_tensor.
Proof.
  intros a g. unfold layout_tensor. cbn [fst].
  destruct (mt_noncontiguous a); [|done]. by rewrite noncontiguous_like_shape.
Qed.

Lemma layout_tensor_honours : honours_noncontiguous layout_tensor.
Proof.
  intros a g. unfold layout_tensor. cbn [fst]. split.
  - intros ->. apply lowest_tensor_is_contiguous.
  - intros -> Hnumel. by apply noncontiguous_like_breaks_layout.
Qed.

Lemma elementwise_unary_generator_shapes_witness :
  returns_requested_shape layout_tensor
  ∧ honours_noncontiguous layout_tensor
  ∧ ∃ (tensors : list SampleInput) (g3 : nat),
      (elementwise_unary_generator nat layout_tensor
         (acos_opinfo (λ _, []) ["cpu"]) "cpu" float32 false true [] 0).1
      = tensors
        ++ (if true && negb (is_complex_dtype float32)
            then [mkSampleInput
                    [VNumber (make_number nat layout_tensor float32
                       (clamp_domain (domain (acos_opinfo (λ _, []) ["cpu"]))).1
                       (clamp_domain (domain (acos_opinfo (λ _, []) ["cpu"]))).2
                       [] g3).1] []]
            else [])
      ∧ map tensor_layout_of tensors
        = map (λ shape, Some (shape, true)) shapes
          ++ map (λ shape, Some (shape, bool_decide (shape = []))) shapes
          ++ map (λ c, Some (c.1.1, false)) strided_cases
      ∧ map tensor_shape_of
          (elementwise_unary_generator nat layout_tensor
             (acos_opinfo (λ _, []) ["cpu"]) "cpu" float32 false true [] 0).1
        = map Some (shapes ++ shapes ++ map (λ c, c.1.1) strided_cases)
          ++ (if true && negb (is_complex_dtype float32)
              then [None] else [])
      ∧ Forall (λ s, length (args s) = 1%nat ∧ kwargs s = [])
          (elementwise_unary_generator nat layout_tensor
             (acos_opinfo (λ _, []) ["cpu"]) "cpu" float32 false true [] 0).1.
Proof.
  split; [exact layout_tensor_shape|]. split; [exact layout_tensor_honours|].
  exact (elementwise_unary_generator_shapes layout_tensor
           (acos_opinfo (λ _, []) ["cpu"]) "cpu" float32 false true [] 0
           layout_tensor_shape layout_tensor_honours).
Defined.

(** ** Reduction samples *)

Lemma in_finite_interval (a b : Qc) (v : number) :
  in_interval (Some (Fin a)) (Some (Fin b)) v = true →
  ∃ q : Qc, v = Fin q ∧ (a ≤ q)%Qc ∧ (q < b)%Qc.
Proof.
  unfold in_interval. intros [Hlo Hhi]%andb_true_iff.
  destruct v as [| |q|]; try done.
  exists q. split; [done|].
  split; [by apply number_le_Fin | by apply number_lt_Fin].
Qed.

(** Whatever dtype the generator is called with, each of its seven samples
    carries [dtype=None]: the loop rebinds the local [dtype] when it
    unpacks a four-element case, and the two-element case that ends the
    table reads that local. *)
Theorem reduction_sample_generator_dtype {rng : Type}
    (make_tensor : make_tensor_args → rng → torch.Tensor * rng)
    (op' : OpInfo) (device : string) (dt : dtype) (requires_grad : bool)
    (g : rng) :
  map kwargs
    (reduction_sample_generator rng make_tensor op' device dt requires_grad
       g).1
  = replicate 7 [("dtype", VNone)].
Proof. reflexivity. Qed.

(** Had the two-element case come first, it would carry the dtype the
    generator was called with. *)
Example reduction_loop_reads_local :
  map kwargs
    (reduction_loop nat (λ shape, lowest_tensor
        (mkArgs shape "cpu" float32 None None false false []))
       (VDtype float32)
       [Case2 [4; 4] VNone; Case4 [5] VNone true VNone; Case2 [4; 4] VNone]
       0).1
  = [[("dtype", VDtype float32)]; [("dtype", VNone)]; [("dtype", VNone)]].
Proof. reflexivity. Qed.

Lemma reduction_loop_elem {rng : Type} (make : list nat → gen rng torch.Tensor)
    (dtype_var : pyvalue) (cases : list reduction_case) (g : rng)
    (s : SampleInput) :
  s ∈ (reduction_loop rng make dtype_var cases g).1 →
  ∃ shape g', head (args s) = Some (VTensor (make shape g').1).
Proof.
  revert dtype_var g; induction cases as [|c cases IH]; intros dtype_var g.
  - intros Hs. by apply elem_of_nil in Hs.
  - destruct c as [shape dim keepdim dt' | shape dim];
      cbn [reduction_loop]; unfold bind at 1 2, ret; cbn [fst snd];
      intros [-> | Hs]%elem_of_cons; try by exists shape, g.
    + by eapply IH.
    + by eapply IH.
Qed.

(** Every reduction sample starts with a tensor whose values lie in
    [-2, 3), the bounds the generator sets to keep products small. *)
Theorem reduction_sample_generator_values {rng : Type}
    (make_tensor : make_tensor_args → rng → torch.Tensor * rng)
    (op' : OpInfo) (device : string) (dt : dtype) (requires_grad : bool)
    (g : rng) (s : SampleInput) :
  draws_from_interval make_tensor →
  s ∈ (reduction_sample_generator rng make_tensor op' device dt
         requires_grad g).1 →
  ∃ t, head (args s) = Some (VTensor t)
    ∧ ∀ v, v ∈ torch.values t →
        ∃ q : Qc, v = Fin q ∧ (Qc_of_Z (-2) ≤ q)%Qc ∧ (q < Qc_of_Z 3)%Qc.
Proof.
  intros Hdraw Hs. unfold reduction_sample_generator in Hs.
  apply reduction_loop_elem in Hs as (shape & g' & Hhead).
  eexists. split; [exact Hhead|]. intros v Hv.
  apply in_finite_interval.
  pose proof (Hdraw (mkArgs shape device dt (Some (int (-2))) (Some (int 3))
                       requires_grad false []) g') as Hall.
  rewrite Forall_forall in Hall. apply Hall; [|exact Hv].
  exists (int 0). reflexivity.
Qed.

Lemma reduction_sample_generator_values_witness :
  draws_from_interval lowest_tensor
  ∧ mkSampleInput
      [VTensor (lowest_tensor
                  (mkArgs [4; 4] "cpu" float32 (Some (int (-2)))
                     (Some (int 3)) false false []) 0).1;
       VNone; VBool false] [("dtype", VNone)]
    ∈ (reduction_sample_generator nat lowest_tensor
         (acos_opinfo (λ _, []) ["cpu"]) "cpu" float32 false 0).1
  ∧ ∃ t,
      head (args (mkSampleInput
        [VTensor (lowest_tensor
                    (mkArgs [4; 4] "cpu" float32 (Some (int (-2)))
                       (Some (int 3)) false false []) 0).1;
         VNone; VBool false] [("dtype", VNone)])) = Some (VTensor t)
      ∧ ∀ v, v ∈ torch.values t →
          ∃ q : Qc, v = Fin q ∧ (Qc_of_Z (-2) ≤ q)%Qc ∧ (q < Qc_of_Z 3)%Qc.
Proof.
  assert (Hin : mkSampleInput
      [VTensor (lowest_tensor
                  (mkArgs [4; 4] "cpu" float32 (Some (int (-2)))
                     (Some (int 3)) false false []) 0).1;
       VNone; VBool false] [("dtype", VNone)]
    ∈ (reduction_sample_generator nat lowest_tensor
         (acos_opinfo (λ _, []) ["cpu"]) "cpu" float32 false 0).1)
    by apply list_elem_of_here.
  split; [exact lowest_tensor_draws|]. split; [exact Hin|].
  exact (reduction_sample_generator_values lowest_tensor
           (acos_opinfo (λ _, []) ["cpu"]) "cpu" float32 false 0 _
           lowest_tensor_draws Hin).
Defined.

(** ** The loop of the variance generator *)

(** An iteration raises [IndexError] exactly when the sample it is given
    has no positional argument. *)
Theorem var_sample_IndexError (u c : pyvalue) (sample : SampleInput) :
  var_sample u c sample = Raise IndexError ↔ args sample = [].
Proof.
  unfold var_sample. destruct (args sample) as [|a rest]; cbn [lookup list_lookup].
  - done.
  - split; [|done].
    by destruct (negb (is_None u) && negb (is_None c)), (negb (is_None u)),
      (negb (is_None c)).
Qed.

Lemma collect_app {A : Type} (xs ys : list (result (option A))) :
  collect (xs ++ ys)
  = match collect xs, collect ys with
    | Ok a, Ok b => Ok (a ++ b)
    | Raise e, _ => Raise e
    | Ok _, Raise e => Raise e
    end.
Proof.
  induction xs as [|[o|e] xs IH]; cbn [app collect].
  - by destruct (collect ys).
  - rewrite IH. destruct (collect xs), (collect ys); try done. by destruct o.
  - done.
Qed.

Lemma map_product3 {A B C D : Type} (f : A → B → C → D)
    (us : list A) (cs : list B) (samples : list C) :
  map (λ '(u, c, s), f u c s) (product3 us cs samples)
  = flat_map (λ u, flat_map (λ c, map (f u c) samples) cs) us.
Proof.
  unfold product3. induction us as [|u us IHu]; [done|].
  cbn [flat_map]. rewrite map_app, IHu. apply (f_equal2 app); [|done].
  clear IHu. induction cs as [|c cs IHc]; [done|].
  cbn [flat_map]. rewrite map_app, IHc. apply (f_equal2 app); [|done].
  by rewrite map_map.
Qed.

Lemma var_sample_generator_loop {rng : Type}
    (make_tensor : make_tensor_args → rng → torch.Tensor * rng)
    (op' : OpInfo) (device : string) (dt : dtype) (requires_grad : bool)
    (g : rng) :
  (var_sample_generator rng make_tensor op' device dt requires_grad g).1
  = var_loop
      (reduction_sample_generator rng make_tensor op' device dt requires_grad
         g).1.
Proof. reflexivity. Qed.

Lemma var_block_exact (u c : pyvalue) (samples : list SampleInput) :
  Forall (λ s, args s ≠ []) samples →
  collect (map (var_sample u c) samples)
  = Ok (if negb (is_None u) && negb (is_None c) then []
        else if negb (is_None u) then map (var_with_unbiased u) samples
        else if negb (is_None c) then map (var_with_correction c) samples
        else map var_plain samples).
Proof.
  induction 1 as [|s samples Hs _ IH]; cbn [map collect].
  - by destruct (_ && _), (negb (is_None u)), (negb (is_None c)).
  - rewrite IH. unfold var_sample, var_with_unbiased, var_with_correction,
      var_plain, var_tensor, var_dim, var_keepdim.
    destruct (args s) as [|a rest]; [done|]. cbn [lookup list_lookup].
    by destruct (negb (is_None u)), (negb (is_None c)).
Qed.

(** Over any samples that have a positional argument the loop ends without
    an exception and yields five runs over them, in this order: with
    neither flag, with [correction=0], with [correction=1], with
    [unbiased=True] and with [unbiased=False]; the four combinations with
    both flags yield nothing.  So there are five samples for each sample
    drawn, and each starts with the first argument of the sample it is
    built from: the tensors are shared, not drawn again. *)
Theorem var_loop_yields (samples : list SampleInput) :
  Forall (λ s, args s ≠ []) samples →
  ∃ l, var_loop samples = Ok l
    ∧ l = map var_plain samples
          ++ map (var_with_correction (VInt 0)) samples
          ++ map (var_with_correction (VInt 1)) samples
          ++ map (var_with_unbiased (VBool true)) samples
          ++ map (var_with_unbiased (VBool false)) samples
    ∧ length l = 5 * length samples
    ∧ ∀ s', s' ∈ l → ∃ s, s ∈ samples ∧ head (args s') = head (args s).
Proof.
  intros Hargs. eexists. split; [|split; [reflexivity|]].
  - unfold var_loop. rewrite map_product3.
    unfold unbiased, correction. cbn [flat_map]. rewrite !app_nil_r.
    rewrite !collect_app, !var_block_exact by done.
    cbn [is_None negb andb app]. by rewrite !app_nil_r, <- !app_assoc.
  - split; [rewrite !length_app, !length_map; lia|].
    assert (Hhead : ∀ s, s ∈ samples →
      head (args s) = Some (var_tensor s)).
    { intros s Hs. rewrite Forall_forall in Hargs. specialize (Hargs s Hs).
      unfold var_tensor. by destruct (args s). }
    intros s'. rewrite !elem_of_app, !list_elem_of_fmap. intros H.
    decompose [or ex and] H; clear H; subst s';
      match goal with
      | Hin : ?s ∈ samples |- _ =>
          exists s; split; [done|]; by rewrite (Hhead s Hin)
      end.
Qed.

Lemma var_loop_yields_witness :
  Forall (λ s, args s ≠ []) [acos_sample_4x4]
  ∧ ∃ l, var_loop [acos_sample_4x4] = Ok l
      ∧ l = map var_plain [acos_sample_4x4]
            ++ map (var_with_correction (VInt 0)) [acos_sample_4x4]
            ++ map (var_with_correction (VInt 1)) [acos_sample_4x4]
            ++ map (var_with_unbiased (VBool true)) [acos_sample_4x4]
            ++ map (var_with_unbiased (VBool false)) [acos_sample_4x4]
      ∧ length l = 5 * length [acos_sample_4x4]
      ∧ ∀ s', s' ∈ l →
          ∃ s, s ∈ [acos_sample_4x4] ∧ head (args s') = head (args s).
Proof.
  assert (H : Forall (λ s, args s ≠ []) [acos_sample_4x4])
    by (repeat constructor; discriminate).
  split; [exact H|]. exact (var_loop_yields [acos_sample_4x4] H).
Defined.

(** A sample without positional arguments stops the loop at once. *)
Example var_loop_empty_sample :
  var_loop [mkSampleInput [] [("dtype", VNone)]] = Raise IndexError.
Proof. reflexivity. Qed.

(** ** Predicate tensors of the ternary generators *)

(** Each sample of [where_sample_generator] is a predicate and two
    operands; the predicate is asked for as [torch.bool] without gradient,
    whatever dtype and [requires_grad] the generator is called with, and
    the operands take both from the call. *)
Theorem where_sample_generator_predicate {rng : Type}
    (make_tensor : make_tensor_args → rng → torch.Tensor * rng)
    (op' : OpInfo) (device : string) (dt : dtype) (requires_grad : bool)
    (g : rng) (s : SampleInput) :
  returns_requested_meta make_tensor →
  s ∈ (where_sample_generator rng make_tensor op' device dt requires_grad g).1 →
  ∃ pred a b,
    args s = [VTensor pred; VTensor a; VTensor b] ∧ kwargs s = []
    ∧ torch.dtype pred = bool8 ∧ torch.requires_grad pred = false
    ∧ torch.dtype a = dt ∧ torch.requires_grad a = requires_grad
    ∧ torch.dtype b = dt ∧ torch.requires_grad b = requires_grad.
Proof.
  intros Hmeta Hs. unfold where_sample_generator in Hs.
  apply for_each_elem in Hs as ([[pred_shape a_shape] b_shape] & g' & _ & ->).
  unfold bind, ret. cbn [fst snd].
  do 3 eexists. split; [reflexivity|]. split; [reflexivity|].
  repeat split; apply Hmeta.
Qed.

(** The same for [masked_fill_sample_generator], whose samples are the
    operand, the predicate and a number. *)
Theorem masked_fill_sample_generator_predicate {rng : Type}
    (make_tensor : make_tensor_args → rng → torch.Tensor * rng)
    (op' : OpInfo) (device : string) (dt : dtype) (requires_grad : bool)
    (g : rng) (s : SampleInput) :
  returns_requested_meta make_tensor →
  s ∈ (masked_fill_sample_generator rng make_tensor op' device dt
         requires_grad g).1 →
  ∃ a pred value,
    args s = [VTensor a; VTensor pred; VNumber value] ∧ kwargs s = []
    ∧ torch.dtype pred = bool8 ∧ torch.requires_grad pred = false
    ∧ torch.dtype a = dt ∧ torch.requires_grad a = requires_grad.
Proof.
  intros Hmeta Hs. unfold masked_fill_sample_generator in Hs.
  unfold bind at 1 in Hs.
  apply for_each_elem in Hs as ([[pred_shape a_shape] value] & g' & _ & ->).
  unfold bind, ret. cbn [fst snd].
  do 3 eexists. split; [reflexivity|]. split; [reflexivity|].
  repeat split; apply Hmeta.
Qed.

Lemma lowest_tensor_meta : returns_requested_meta lowest_tensor.
Proof. intros a g. split; reflexivity. Qed.

Lemma where_sample_generator_predicate_witness :
  let s :=
    mkSampleInput
      [VTensor (lowest_tensor (mkArgs [5] "cpu" bool8 None None false false
                                 []) 0).1;
       VTensor (lowest_tensor (mkArgs [5] "cpu" float32 None None true false
                                 []) 1).1;
       VTensor (lowest_tensor (mkArgs [5] "cpu" float32 None None true false
                                 []) 2).1] [] in
  returns_requested_meta lowest_tensor
  ∧ s ∈ (where_sample_generator nat lowest_tensor
           (acos_opinfo (λ _, []) ["cpu"]) "cpu" float32 true 0).1
  ∧ ∃ pred a b,
      args s = [VTensor pred; VTensor a; VTensor b] ∧ kwargs s = []
      ∧ torch.dtype pred = bool8 ∧ torch.requires_grad pred = false
      ∧ torch.dtype a = float32 ∧ torch.requires_grad a = true
      ∧ torch.dtype b = float32 ∧ torch.requires_grad b = true.
Proof.
  intros s.
  assert (Hin : s ∈ (where_sample_generator nat lowest_tensor
                       (acos_opinfo (λ _, []) ["cpu"]) "cpu" float32 true 0).1)
    by apply list_elem_of_here.
  split; [exact lowest_tensor_meta|]. split; [exact Hin|].
  exact (where_sample_generator_predicate lowest_tensor
           (acos_opinfo (λ _, []) ["cpu"]) "cpu" float32 true 0 s
           lowest_tensor_meta Hin).
Defined.

Lemma masked_fill_sample_generator_predicate_witness :
  let s :=
    mkSampleInput
      [VTensor (lowest_tensor (mkArgs [1; 2; 2] "cpu" float32 None None true
                                 false []) 0).1;
       VTensor (lowest_tensor (mkArgs [2; 1; 2] "cpu" bool8 None None false
                                 false []) 0).1;
       VNumber (int 0)] [] in
  returns_requested_meta lowest_tensor
  ∧ s ∈ (masked_fill_sample_generator nat lowest_tensor
           (acos_opinfo (λ _, []) ["cpu"]) "cpu" float32 true 0).1
  ∧ ∃ a pred value,
      args s = [VTensor a; VTensor pred; VNumber value] ∧ kwargs s = []
      ∧ torch.dtype pred = bool8 ∧ torch.requires_grad pred = false
      ∧ torch.dtype a = float32 ∧ torch.requires_grad a = true.
Proof.
  intros s.
  assert (Hin : s ∈ (masked_fill_sample_generator nat lowest_tensor
                       (acos_opinfo (λ _, []) ["cpu"]) "cpu" float32 true 0).1)
    by apply list_elem_of_here.
  split; [exact lowest_tensor_meta|]. split; [exact Hin|].
  exact (masked_fill_sample_generator_predicate lowest_tensor
           (acos_opinfo (λ _, []) ["cpu"]) "cpu" float32 true 0 s
           lowest_tensor_meta Hin).
Defined.

(** ** Index tensors of the gather generators *)

Lemma for_each_result_elem {rng A B : Type} (xs : list A)
    (body : A → gen rng (result B)) (g : rng) (ys : list B) (y : B) :
  (for_each_result rng xs body g).1 = Ok ys → y ∈ ys →
  ∃ x g', x ∈ xs ∧ (body x g').1 = Ok y.
Proof.
  revert g ys; induction xs as [|x xs IH]; intros g ys.
  - intros [= <-] Hy. by apply elem_of_nil in Hy.
  - cbn [for_each_result]. unfold bind at 1.
    destruct (body x g).1 as [y0|e] eqn:Hbody; [|done].
    unfold bind, ret. cbn [fst snd].
    destruct (for_each_result rng xs body (body x g).2).1 as [ys0|e] eqn:Hrest;
      [|done].
    intros [= <-] [-> | Hy]%elem_of_cons.
    + exists x, g. split; [apply list_elem_of_here | done].
    + destruct (IH _ _ Hrest Hy) as (x' & g' & Hx' & Hy').
      exists x', g'. split; [by apply list_elem_of_further | done].
Qed.

Lemma for_each_result_total {rng A B : Type} (xs : list A)
    (body : A → gen rng (result B)) (g : rng) :
  (∀ x g', x ∈ xs → ∃ y, (body x g').1 = Ok y) →
  ∃ ys, (for_each_result rng xs body g).1 = Ok ys ∧ length ys = length xs.
Proof.
  revert g; induction xs as [|x xs IH]; intros g Hbody.
  - by exists [].
  - cbn [for_each_result]. unfold bind at 1.
    destruct (Hbody x g (list_elem_of_here _ _)) as [y ->].
    unfold bind, ret. cbn [fst snd].
    destruct (IH (body x g).2) as (ys & -> & Hlen).
    { intros x' g' Hx'. apply Hbody. by apply list_elem_of_further. }
    exists (y :: ys). split; [done|]. cbn [length]. by rewrite Hlen.
Qed.

(** The gathered dimension of every case has at least one element, so the
    interval of admissible indices is not empty. *)
Lemma take_cases_extent (shape_a : list nat) (dim : nat) (shape_b : list nat) :
  (shape_a, dim, shape_b) ∈ take_cases ∨
  (shape_a, dim, shape_b) ∈ take_along_axis_cases →
  ∃ n, getitem shape_a dim = Ok (S n).
Proof.
  unfold take_cases, take_along_axis_cases. intros [Hcase | Hcase];
    repeat (apply elem_of_cons in Hcase as [[= -> -> ->] | Hcase];
            [by eexists|]);
    by apply elem_of_nil in Hcase.
Qed.

Lemma index_interval_inhabited (n : nat) :
  ∃ x, in_interval (Some (int 0)) (Some (int (Z.of_nat (S n)))) x = true.
Proof.
  exists (int 0). unfold in_interval, int.
  apply andb_true_iff. split.
  - apply number_le_Fin, Qcle_refl.
  - apply number_lt_Fin. unfold Qclt, Qc_of_Z, Qlt.
    cbn [this inject_Z Qnum Qden]. lia.
Qed.

Lemma drawn_index_in_dimension {rng : Type}
    (make_tensor : make_tensor_args → rng → torch.Tensor * rng)
    (a_args b_args : make_tensor_args) (g g' : rng) (dim n : nat) :
  draws_from_interval make_tensor →
  returns_requested_shape make_tensor →
  getitem (mt_shape a_args) dim = Ok (S n) →
  mt_low b_args = Some (int 0) →
  mt_high b_args = Some (int (Z.of_nat (S n))) →
  indexes_dimension (make_tensor a_args g).1 (make_tensor b_args g').1 dim.
Proof.
  intros Hdraw Hshape Hget Hlo Hhi. exists (S n). split.
  - rewrite Hshape. unfold getitem in Hget.
    by destruct (mt_shape a_args !! dim) as [k|]; [injection Hget as ->|].
  - intros v Hv. apply in_finite_interval.
    pose proof (Hdraw b_args g') as Hall. rewrite Hlo, Hhi in Hall.
    rewrite Forall_forall in Hall. apply Hall; [|done].
    apply index_interval_inhabited.
Qed.

(** [take_sample_generator] ends without an exception and yields two
    samples for each of its eight cases, one for each index dtype; in each
    sample the index tensor holds only valid positions of the gathered
    dimension: at least 0 and below the extent of [a] in [dim]. *)
Theorem take_sample_generator_indices {rng : Type}
    (make_tensor : make_tensor_args → rng → torch.Tensor * rng)
    (op' : OpInfo) (device : string) (dt : dtype) (requires_grad : bool)
    (g : rng) :
  draws_from_interval make_tensor →
  returns_requested_shape make_tensor →
  ∃ samples,
    (take_sample_generator rng make_tensor op' device dt requires_grad g).1
    = Ok samples
    ∧ length samples = 16%nat
    ∧ ∀ s, s ∈ samples →
        ∃ a b dim,
          args s = [VTensor a; VTensor b; VInt (Z.of_nat dim)]
          ∧ indexes_dimension a b dim.
Proof.
  intros Hdraw Hshape. unfold take_sample_generator. unfold bind at 1, ret at 1.
  cbn [fst snd].
  match goal with
  | |- context [for_each_result rng take_cases ?body g] =>
      set (outer := body)
  end.
  assert (Hinner : ∀ shape_a dim shape_b g0 index_dtype,
    (shape_a, dim, shape_b) ∈ take_cases →
    ∃ a b,
      indexes_dimension a b dim
      ∧ (bind rng
           (make_tensor (mkArgs shape_a device dt None None requires_grad
                           false []))
           (λ a, match getitem shape_a dim with
                 | Raise e => ret rng (Raise e)
                 | Ok hi =>
                     bind rng
                       (make_tensor (mkArgs shape_b device index_dtype
                          (Some (int 0)) (Some (int (Z.of_nat hi))) false
                          false []))
                       (λ b, ret rng (Ok (mkSampleInput
                          [VTensor a; VTensor b; VInt (Z.of_nat dim)] [])))
                 end) g0).1
        = Ok (mkSampleInput [VTensor a; VTensor b; VInt (Z.of_nat dim)] [])).
  { intros shape_a dim shape_b g0 index_dtype Hcase.
    destruct (take_cases_extent shape_a dim shape_b (or_introl Hcase))
      as [n Hn].
    unfold bind, ret. cbn [fst snd]. rewrite Hn. cbn [fst snd].
    do 2 eexists. split; [|reflexivity].
    by eapply drawn_index_in_dimension. }
  destruct (for_each_result_total take_cases outer g) as (groups & Hgroups & Hlen).
  { intros [[shape_a dim] shape_b] g' Hcase. unfold outer.
    destruct (for_each_result_total take_index_dtypes
      (λ index_dtype,
         bind rng
           (make_tensor (mkArgs shape_a device dt None None requires_grad
                           false []))
           (λ a, match getitem shape_a dim with
                 | Raise e => ret rng (Raise e)
                 | Ok hi =>
                     bind rng
                       (make_tensor (mkArgs shape_b device index_dtype
                          (Some (int 0)) (Some (int (Z.of_nat hi))) false
                          false []))
                       (λ b, ret rng (Ok (mkSampleInput
                          [VTensor a; VTensor b; VInt (Z.of_nat dim)] [])))
                 end)) g') as (ys & Hys & _).
    - intros index_dtype g0 _.
      destruct (Hinner shape_a dim shape_b g0 index_dtype Hcase)
        as (a & b & _ & Hab).
      by eexists.
    - by exists ys. }
  rewrite Hgroups. eexists. split; [reflexivity|].
  assert (Hgroup : ∀ group, group ∈ groups →
    length group = 2%nat
    ∧ ∀ s, s ∈ group →
        ∃ a b dim,
          args s = [VTensor a; VTensor b; VInt (Z.of_nat dim)]
          ∧ indexes_dimension a b dim).
  { intros group Hgroup.
    destruct (for_each_result_elem _ _ _ _ _ Hgroups Hgroup)
      as ([[shape_a dim] shape_b] & g' & Hcase & Hbody).
    unfold outer in Hbody. split.
    - destruct (for_each_result_total take_index_dtypes
        (λ index_dtype,
           bind rng
             (make_tensor (mkArgs shape_a device dt None None requires_grad
                             false []))
             (λ a, match getitem shape_a dim with
                   | Raise e => ret rng (Raise e)
                   | Ok hi =>
                       bind rng
                         (make_tensor (mkArgs shape_b device index_dtype
                            (Some (int 0)) (Some (int (Z.of_nat hi))) false
                            false []))
                         (λ b, ret rng (Ok (mkSampleInput
                            [VTensor a; VTensor b; VInt (Z.of_nat dim)] [])))
                   end)) g') as (ys & Hys & Hlen2).
      + intros index_dtype g0 _.
        destruct (Hinner shape_a dim shape_b g0 index_dtype Hcase)
          as (a & b & _ & Hab).
        by eexists.
      + rewrite Hys in Hbody. by injection Hbody as <-.
    - intros s Hs.
      destruct (for_each_result_elem _ _ _ _ _ Hbody Hs)
        as (index_dtype & g0 & _ & Hsample).
      destruct (Hinner shape_a dim shape_b g0 index_dtype Hcase)
        as (a & b & Hidx & Hab).
      rewrite Hab in Hsample. injection Hsample as <-.
      by exists a, b, dim. }
  split.
  - clear Hgroups. change 16%nat with (length take_cases * 2)%nat.
    rewrite <- Hlen. clear Hlen.
    induction groups as [|group groups IH]; [done|].
    cbn [concat length]. rewrite length_app, IH.
    + destruct (Hgroup group (list_elem_of_here _ _)) as [-> _]. lia.
    + intros group' Hgroup'. apply Hgroup. by apply list_elem_of_further.
  - intros s Hs. apply list_elem_of_In, in_concat in Hs as (group & Hgroup' & Hs).
    apply (Hgroup group); by apply list_elem_of_In.
Qed.

Lemma take_sample_generator_indices_witness :
  draws_from_interval lowest_tensor
  ∧ returns_requested_shape lowest_tensor
  ∧ ∃ samples,
      (take_sample_generator nat lowest_tensor
         (acos_opinfo (λ _, []) ["cpu"]) "cpu" float32 false 0).1
      = Ok samples
      ∧ length samples = 16%nat
      ∧ ∀ s, s ∈ samples →
          ∃ a b dim,
            args s = [VTensor a; VTensor b; VInt (Z.of_nat dim)]
            ∧ indexes_dimension a b dim.
Proof.
  split; [exact lowest_tensor_draws|]. split; [exact lowest_tensor_shape|].
  exact (take_sample_generator_indices lowest_tensor
           (acos_opinfo (λ _, []) ["cpu"]) "cpu" float32 false 0
           lowest_tensor_draws lowest_tensor_shape).
Defined.

(** [take_along_axis_sample_generator] ends without an exception and
    yields one sample for each of its eight cases; the index tensor, drawn
    as [torch.long], holds only valid positions of the gathered
    dimension. *)
Theorem take_along_axis_sample_generator_indices {rng : Type}
    (make_tensor : make_tensor_args → rng → torch.Tensor * rng)
    (op' : OpInfo) (device : string) (dt : dtype) (requires_grad : bool)
    (g : rng) :
  draws_from_interval make_tensor →
  returns_requested_shape make_tensor →
  ∃ samples,
    (take_along_axis_sample_generator rng make_tensor op' device dt
       requires_grad g).1 = Ok samples
    ∧ length samples = 8%nat
    ∧ ∀ s, s ∈ samples →
        ∃ a b dim,
          args s = [VTensor a; VTensor b; VInt (Z.of_nat dim)]
          ∧ indexes_dimension a b dim.
Proof.
  intros Hdraw Hshape. unfold take_along_axis_sample_generator.
  match goal with
  | |- context [for_each_result rng take_along_axis_cases ?f g] =>
      set (body := f)
  end.
  assert (Hbody : ∀ shape_a dim shape_b g0,
    (shape_a, dim, shape_b) ∈ take_along_axis_cases →
    ∃ a b,
      indexes_dimension a b dim
      ∧ (body (shape_a, dim, shape_b) g0).1
        = Ok (mkSampleInput [VTensor a; VTensor b; VInt (Z.of_nat dim)] [])).
  { intros shape_a dim shape_b g0 Hcase.
    destruct (take_cases_extent shape_a dim shape_b (or_intror Hcase))
      as [n Hn].
    unfold body, bind, ret. cbn [fst snd]. rewrite Hn. cbn [fst snd].
    do 2 eexists. split; [|reflexivity].
    by eapply drawn_index_in_dimension. }
  destruct (for_each_result_total take_along_axis_cases body g)
    as (samples & Hsamples & Hlen).
  { intros [[shape_a dim] shape_b] g0 Hcase.
    destruct (Hbody shape_a dim shape_b g0 Hcase) as (a & b & _ & Hab).
    by eexists. }
  exists samples. split; [done|]. split; [done|].
  intros s Hs.
  destruct (for_each_result_elem _ _ _ _ _ Hsamples Hs)
    as ([[shape_a dim] shape_b] & g0 & Hcase & Hsample).
  destruct (Hbody shape_a dim shape_b g0 Hcase) as (a & b & Hidx & Hab).
  rewrite Hab in Hsample. injection Hsample as <-.
  by exists a, b, dim.
Qed.

Lemma take_along_axis_sample_generator_indices_witness :
  draws_from_interval lowest_tensor
  ∧ returns_requested_shape lowest_tensor
  ∧ ∃ samples,
      (take_along_axis_sample_generator nat lowest_tensor
         (acos_opinfo (λ _, []) ["cpu"]) "cpu" float32 false 0).1
      = Ok samples
      ∧ length samples = 8%nat
      ∧ ∀ s, s ∈ samples →
          ∃ a b dim,
            args s = [VTensor a; VTensor b; VInt (Z.of_nat dim)]
            ∧ indexes_dimension a b dim.
Proof.
  split; [exact lowest_tensor_draws|]. split; [exact lowest_tensor_shape|].
  exact (take_along_axis_sample_generator_indices lowest_tensor
           (acos_opinfo (λ _, []) ["cpu"]) "cpu" float32 false 0
           lowest_tensor_draws lowest_tensor_shape).
Defined.

(** ** The squeeze reference *)

Module squeeze_facts.
Import squeeze.
Local Open Scope nat_scope.

Lemma insert_desc_elem (x y : Z) (l : list Z) :
  y ∈ insert_desc x l ↔ y = x ∨ y ∈ l.
Proof.
  induction l as [|z l IH]; cbn [insert_desc].
  - rewrite list_elem_of_singleton, elem_of_nil. tauto.
  - destruct (z <? x)%Z; rewrite !elem_of_cons; [tauto|]. rewrite IH. tauto.
Qed.

Lemma sorted_reverse_elem (y : Z) (l : list Z) :
  y ∈ sorted_reverse l ↔ y ∈ l.
Proof.
  unfold sorted_reverse. induction l as [|x l IH]; cbn [foldr]; [done|].
  by rewrite insert_desc_elem, elem_of_cons, IH.
Qed.

Lemma insert_desc_descending (x : Z) (l : list Z) :
  x ∉ l → descending l → descending (insert_desc x l).
Proof.
  induction l as [|z l IH]; cbn [insert_desc descending].
  - intros _ _. split; [|done]. intros y Hy. by apply elem_of_nil in Hy.
  - intros Hx [Hz Hl]. apply not_elem_of_cons in Hx as [Hxz Hx].
    destruct (Z.ltb_spec z x) as [Hlt | Hge]; cbn [descending].
    + split; [|done]. intros y [-> | Hy]%elem_of_cons; [done|].
      specialize (Hz y Hy). lia.
    + split; [|by apply IH]. intros y [-> | Hy]%insert_desc_elem; [lia|].
      by apply Hz.
Qed.

Lemma sorted_reverse_descending (l : list Z) :
  NoDup l → descending (sorted_reverse l).
Proof.
  unfold sorted_reverse. induction 1 as [|x l Hx _ IH]; cbn [foldr]; [done|].
  apply insert_desc_descending; [|done]. by rewrite sorted_reverse_elem.
Qed.

Lemma without_unit_dims_ext (i : nat) (dims dims' : list nat)
    (sizes : list nat) :
  (∀ j, i ≤ j → j ∈ dims ↔ j ∈ dims') →
  without_unit_dims i dims sizes = without_unit_dims i dims' sizes.
Proof.
  revert i; induction sizes as [|n sizes IH]; intros i Hsame; [done|].
  cbn [without_unit_dims].
  rewrite (bool_decide_ext (i ∈ dims) (i ∈ dims')) by (apply Hsame; lia).
  rewrite (IH (S i)); [done|]. intros j Hj. apply Hsame. lia.
Qed.

Lemma without_unit_dims_none (i : nat) (dims : list nat) (sizes : list nat) :
  (∀ j, j ∈ dims → j < i) → without_unit_dims i dims sizes = sizes.
Proof.
  revert i; induction sizes as [|n sizes IH]; intros i Hbelow; [done|].
  cbn [without_unit_dims].
  rewrite bool_decide_eq_false_2; cbn [andb].
  - f_equal. apply IH. intros j Hj. specialize (Hbelow j Hj). lia.
  - intros Hi. specialize (Hbelow i Hi). lia.
Qed.

(** Removing the dimension at distance [k] from position [i] first, when
    it has size 1, and the lower ones afterwards, removes what removing all
    of them at once does. *)
Lemma without_unit_dims_step (i k : nat) (rest : list nat)
    (sizes : list nat) :
  (∀ j, j ∈ rest → j < i + k) →
  without_unit_dims i rest
    (if bool_decide (sizes !! k = Some 1) then delete k sizes else sizes)
  = without_unit_dims i ((i + k) :: rest) sizes.
Proof.
  revert i k; induction sizes as [|n sizes IH]; intros i k Hbelow.
  - by destruct k; case_bool_decide.
  - destruct k as [|k].
    + cbn [lookup list_lookup delete list_delete without_unit_dims].
      rewrite Nat.add_0_r in *.
      rewrite (bool_decide_eq_true_2 (i ∈ i :: rest))
        by apply list_elem_of_here.
      cbn [andb].
      assert (Htail : ∀ l, without_unit_dims (S i) (i :: rest) l = l).
      { intros l. apply without_unit_dims_none.
        intros j [-> | Hj]%elem_of_cons; [lia|].
        specialize (Hbelow j Hj). lia. }
      assert (Hrest : ∀ m l, i ≤ m →
        (∀ j, j ∈ rest → j < i) → without_unit_dims m rest l = l).
      { intros m l Hm Hr. apply without_unit_dims_none.
        intros j Hj. specialize (Hr j Hj). lia. }
      rewrite Htail. case_bool_decide as Hone.
      * injection Hone as ->. cbn [Nat.eqb].
        destruct sizes as [|n' sizes']; [done|].
        by rewrite (Hrest i) by done.
      * destruct (Nat.eqb_spec n 1) as [-> | Hn]; [done|].
        cbn [without_unit_dims].
        rewrite bool_decide_eq_false_2; cbn [andb].
        -- f_equal. by apply Hrest; [lia|].
        -- intros Hi. specialize (Hbelow i Hi). lia.
    + cbn [lookup list_lookup delete list_delete].
      replace (i + S k) with (S i + k) in * by lia.
      assert (Hhead : bool_decide (i ∈ (S i + k) :: rest)
                      = bool_decide (i ∈ rest)).
      { apply bool_decide_ext. rewrite elem_of_cons.
        split; [intros [Hi | Hi]; [lia | done] | auto]. }
      specialize (IH (S i) k Hbelow).
      revert IH. destruct (bool_decide (sizes !! k = Some 1)); intros IH;
        cbn [without_unit_dims]; rewrite Hhead;
        destruct (bool_decide (i ∈ rest) && (n =? 1)%nat); by rewrite <- IH.
Qed.

Lemma wrap_dim_nonneg (rank : nat) (z : Z) :
  (0 ≤ z < Z.of_nat rank)%Z → wrap_dim rank z = Ok (Z.to_nat z).
Proof.
  intros Hz. unfold wrap_dim.
  rewrite bool_decide_eq_true_2 by lia.
  by rewrite bool_decide_eq_false_2 by lia.
Qed.

Lemma squeeze_each_descending (zs : list Z) (a : torch.Tensor) :
  descending zs →
  (∀ z, z ∈ zs → (0 ≤ z < Z.of_nat (length (torch.shape a)))%Z) →
  ∃ a', squeeze_each a zs = Ok a'
    ∧ torch.shape a'
      = without_unit_dims 0 (map Z.to_nat zs) (torch.shape a)
    ∧ torch.storage a' = torch.storage a.
Proof.
  revert a; induction zs as [|z zs IH]; intros a Hdesc Hrange.
  - exists a. split; [done|]. split; [|done].
    symmetry. apply without_unit_dims_none. intros j Hj.
    by apply elem_of_nil in Hj.
  - destruct Hdesc as [Hbelow Hdesc].
    pose proof (Hrange z (list_elem_of_here _ _)) as Hz.
    cbn [squeeze_each]. unfold squeeze_dim.
    rewrite wrap_dim_nonneg by lia.
    set (a1 := if bool_decide (torch.shape a !! Z.to_nat z = Some 1) then _
               else a).
    assert (Hshape1 : torch.shape a1
      = if bool_decide (torch.shape a !! Z.to_nat z = Some 1)
        then delete (Z.to_nat z) (torch.shape a) else torch.shape a)
      by (unfold a1; by case_bool_decide).
    assert (Hstorage1 : torch.storage a1 = torch.storage a)
      by (unfold a1; by case_bool_decide).
    destruct (IH a1 Hdesc) as (a' & Ha' & Hshape' & Hstorage').
    { intros y Hy. specialize (Hbelow y Hy).
      pose proof (Hrange y (list_elem_of_further _ _ _ Hy)) as Hy'.
      rewrite Hshape1. case_bool_decide; [|lia].
      rewrite length_delete by (apply lookup_lt_is_Some; lia). lia. }
    exists a'. split; [done|]. split; [|congruence].
    rewrite Hshape', Hshape1. cbn [map].
    rewrite <- (Nat.add_0_l (Z.to_nat z)) at 3.
    apply without_unit_dims_step.
    intros j (y & -> & Hy)%list_elem_of_fmap. specialize (Hbelow y Hy).
    pose proof (Hrange y (list_elem_of_further _ _ _ Hy)). lia.
Qed.

End squeeze_facts.

(** For a sequence of distinct dimensions, none negative and each within
    the rank, the reference returns a view of the same storage whose shape
    is the tensor's shape without the listed dimensions of size 1: going
    through the dimensions from the highest down keeps the positions still
    to be visited in place. *)
Theorem torch_squeeze_helper_sequence (a : torch.Tensor) (dims : list nat) :
  NoDup dims →
  (∀ d, d ∈ dims → (d < length (torch.shape a))%nat) →
  ∃ a',
    squeeze.torch_squeeze_helper a (squeeze.DimSeq (map Z.of_nat dims))
    = Ok a'
    ∧ torch.shape a' = squeeze.without_unit_dims 0 dims (torch.shape a)
    ∧ torch.storage a' = torch.storage a.
Proof.
  intros Hnodup Hrange. unfold squeeze.torch_squeeze_helper.
  destruct (squeeze_facts.squeeze_each_descending
              (squeeze.sorted_reverse (map Z.of_nat dims)) a)
    as (a' & Ha' & Hshape & Hstorage).
  - apply squeeze_facts.sorted_reverse_descending.
    apply NoDup_fmap_2; [|done]. intros x y. lia.
  - intros z Hz. rewrite squeeze_facts.sorted_reverse_elem in Hz.
    apply list_elem_of_fmap in Hz as (d & -> & Hd). specialize (Hrange d Hd).
    lia.
  - exists a'. split; [done|]. split; [|done]. rewrite Hshape.
    apply squeeze_facts.without_unit_dims_ext. intros j _.
    rewrite list_elem_of_fmap. split.
    + intros (z & -> & Hz). rewrite squeeze_facts.sorted_reverse_elem in Hz.
      apply list_elem_of_fmap in Hz as (d & -> & Hd). by rewrite Nat2Z.id.
    + intros Hj. exists (Z.of_nat j). split; [by rewrite Nat2Z.id|].
      rewrite squeeze_facts.sorted_reverse_elem. apply list_elem_of_fmap.
      by exists j.
Qed.

Lemma torch_squeeze_helper_sequence_witness :
  NoDup [2%nat; 3%nat]
  ∧ (∀ d, d ∈ [2%nat; 3%nat] → (d < length (torch.shape t121131))%nat)
  ∧ ∃ a',
      squeeze.torch_squeeze_helper t121131
        (squeeze.DimSeq (map Z.of_nat [2%nat; 3%nat])) = Ok a'
      ∧ torch.shape a'
        = squeeze.without_unit_dims 0 [2%nat; 3%nat] (torch.shape t121131)
      ∧ torch.storage a' = torch.storage t121131.
Proof.
  assert (H1 : NoDup [2%nat; 3%nat]) by (apply NoDup_ListNoDup; repeat constructor; cbn; lia).
  assert (H2 : ∀ d, d ∈ [2%nat; 3%nat] →
                 (d < length (torch.shape t121131))%nat).
  { intros d Hd. apply list_elem_of_In in Hd. cbn in Hd |- *. lia. }
  split; [exact H1|]. split; [exact H2|].
  exact (torch_squeeze_helper_sequence t121131 [2%nat; 3%nat] H1 H2).
Defined.

(** The two squeeze samples with a sequence, and the edge the sorting
    does not cover: with a negative dimension in the sequence the highest
    index is squeezed first and the negative one, valid for the tensor
    passed in, is then out of range. *)
Example torch_squeeze_helper_cases :
  (∀ a', squeeze.torch_squeeze_helper t121131 (squeeze.DimSeq [2; 3]%Z) = Ok a'
         → torch.shape a' = [1; 2; 3; 1]%nat)
  ∧ squeeze.torch_squeeze_helper
      (torch.mkTensor [1; 3; 1] [3; 1; 1] 0 [int 1; int 2; int 3] float32
         "cpu" false)
      (squeeze.DimSeq [-3; 2]%Z)
    = Raise IndexError.
Proof. split; [by intros a' [= <-] | reflexivity]. Qed.

(** ** Noncontiguous samples *)

(** Applied twice to a sample whose tensors all have two or more
    elements, [noncontiguous] gives what it gives applied once. *)
Theorem noncontiguous_twice (s : SampleInput) :
  (∀ t, VTensor t ∈ args s ++ map snd (kwargs s) →
     (2 ≤ torch.numel (torch.shape t))%nat) →
  noncontiguous (noncontiguous s) = noncontiguous s.
Proof.
  intros Hsize. apply noncontiguous_idempotent. intros v t' Hv Hto.
  destruct v as [| | | | |t|]; try discriminate.
  injection Hto as <-. apply noncontiguous_like_breaks_layout. by apply Hsize.
Qed.

Lemma noncontiguous_twice_witness :
  (∀ t, VTensor t ∈ args (mkSampleInput [VTensor t23; VInt 1] [])
                    ++ map snd (kwargs (mkSampleInput [VTensor t23; VInt 1] [])) →
     (2 ≤ torch.numel (torch.shape t))%nat)
  ∧ noncontiguous (noncontiguous (mkSampleInput [VTensor t23; VInt 1] []))
    = noncontiguous (mkSampleInput [VTensor t23; VInt 1] []).
Proof.
  assert (H : ∀ t,
    VTensor t ∈ args (mkSampleInput [VTensor t23; VInt 1] [])
                ++ map snd (kwargs (mkSampleInput [VTensor t23; VInt 1] [])) →
    (2 ≤ torch.numel (torch.shape t))%nat).
  { intros t Ht. cbn in Ht. apply elem_of_cons in Ht as [[= ->] | Ht].
    - vm_compute. lia.
    - apply list_elem_of_singleton in Ht. discriminate. }
  split; [exact H|].
  exact (noncontiguous_twice (mkSampleInput [VTensor t23; VInt 1] []) H).
Defined.
